(** * Verification of the tutorial scripts [Flask.py] and [Requests.py]

    The scripts are embedded shallowly.  Python values that cross the HTTP
    boundary are JSON values; dictionaries are finite maps; a route handler
    is a function from the request and the state of the process to an
    outcome (a response, or a raised exception) and the new state.  The
    [requests] library, the clock and the network are inputs of the model:
    a function that calls them takes the answer they give as an argument and
    records what it did in a trace. *)

From Stdlib Require Import ZArith Floats String Ascii List.
From stdpp Require Import gmap strings list fin_maps pretty.

Set Warnings "-register-all".
Local Open Scope string_scope.
Local Open Scope Z_scope.
Local Open Scope list_scope.

(* ===================================================================== *)
(** * Python values and exceptions                                        *)
(* ===================================================================== *)

Module Py.

(** What [json.loads] builds and [json.dumps] accepts.  Numbers are the
    integers; binary64 values are outside this embedding. *)
Inductive json : Type :=
  | JNull
  | JBool (b : bool)
  | JInt (n : Z)
  | JStr (s : string)
  | JArr (l : list json)
  | JObj (o : gmap string json).

(** Exceptions the scripts can meet in their own code. *)
Inductive exn : Type :=
  | KeyError (k : string)
  | TypeError
  | AttributeError
  | ZeroDivisionError.

Inductive result (A : Type) : Type :=
  | Ok (a : A)
  | Raise (e : exn).
Arguments Ok {A} a.
Arguments Raise {A} e.

#[global] Instance result_ret : MRet result := λ A a, Ok a.
#[global] Instance result_bind : MBind result := λ A B f m,
  match m with Ok a => f a | Raise e => Raise e end.

(** [bool(v)] *)
Definition truthy (v : json) : bool :=
  match v with
  | JNull => false
  | JBool b => b
  | JInt n => negb (n =? 0)
  | JStr s => negb (String.eqb s "")
  | JArr l => match l with [] => false | _ => true end
  | JObj o => negb (bool_decide (o = ∅))
  end.

(** The integer a value stands for in arithmetic and comparisons:
    [bool] is a subclass of [int]. *)
Definition num_of (v : json) : option Z :=
  match v with
  | JInt n => Some n
  | JBool b => Some (Z.b2z b)
  | _ => None
  end.

(** [v == n] for an [int] n: numbers compare by value, and a value of any
    other type is unequal to every integer. *)
Definition eq_int (v : json) (n : Z) : bool :=
  match num_of v with
  | Some m => m =? n
  | None => false
  end.

(** [v == s] for a [str] s. *)
Definition eq_str (v : json) (s : string) : bool :=
  match v with
  | JStr t => String.eqb t s
  | _ => false
  end.

(** [d[k]] on a dictionary. *)
Definition subscript (k : string) (d : gmap string json) : result json :=
  match d !! k with
  | Some v => Ok v
  | None => Raise (KeyError k)
  end.

(** [k in v] for a [str] k: key membership in a dict, substring test in a
    string, element membership in a list; the other types are not
    containers. *)
Definition contains (k : string) (v : json) : result bool :=
  match v with
  | JObj o => Ok (bool_decide (is_Some (o !! k)))
  | JStr s => Ok (bool_decide (is_Some (String.index 0 k s)))
  | JArr l => Ok (existsb (λ x, eq_str x k) l)
  | _ => Raise TypeError
  end.

(** [v[k]] for a [str] k: only a dict can be indexed by a string. *)
Definition getitem (k : string) (v : json) : result json :=
  match v with
  | JObj o => subscript k o
  | _ => Raise TypeError
  end.

(** [v.get(k, d)] : only a dict has the method. *)
Definition get_default (k : string) (d : json) (v : json) : result json :=
  match v with
  | JObj o => Ok (default d (o !! k))
  | _ => Raise AttributeError
  end.

(** [v.items()] : only a dict has the method. *)
Definition items (v : json) : result (gmap string json) :=
  match v with
  | JObj o => Ok o
  | _ => Raise AttributeError
  end.

End Py.

(* ===================================================================== *)
(** * [Flask.py]: the web application                                     *)
(* ===================================================================== *)

Module Flask.
Import Py.

(** ** What the framework hands to a handler *)

Record upload := { filename : string; content_type : string }.

(** The [request] proxy during one request.  [args_int] and [form_int] hold
    the entries that [get(key, type=int)] converts; [now_iso], [now_ymd]
    and [elapsed] are the readings of the clock the request makes.
    [get_json] is the value [request.get_json()] returns ([JNull] for
    [None]).  A request on which that call raises (a body that does not
    decode; on Flask 2.1 and later also a content type that is not JSON) is
    answered by the framework with 400 or 415 and is not a value of this
    record. *)
Record request := {
  method : string;
  path : string;
  remote_addr : string;
  args : gmap string string;
  args_int : gmap string Z;
  form : gmap string string;
  form_int : gmap string Z;
  files : gmap string upload;
  get_json : json;
  is_json : bool;
  now_iso : string;
  now_ymd : string;
  elapsed : string;
}.

(** The state a handler can read and write.  [users_db], [secret_key] and
    [config] are the module-level bindings of the script ([users_db], and
    the attributes of [app] and [Config]); [session] is the per-client
    session of the request being served and [flashes] the framework's queue
    of flashed messages; [disk] and [stdout] are the files written and the
    lines printed. *)
Record world := {
  users_db : list (gmap string json);
  secret_key : string;
  config : gmap string json;
  session : gmap string json;
  flashes : list (string * string);
  disk : gmap string json;
  stdout : list string;
}.

Definition set_users_db (db : list (gmap string json)) (w : world) : world :=
  {| users_db := db; secret_key := secret_key w; config := config w;
     session := session w; flashes := flashes w; disk := disk w;
     stdout := stdout w |}.

Definition set_session (s : gmap string json) (w : world) : world :=
  {| users_db := users_db w; secret_key := secret_key w; config := config w;
     session := s; flashes := flashes w; disk := disk w; stdout := stdout w |}.

Definition set_disk (d : gmap string json) (w : world) : world :=
  {| users_db := users_db w; secret_key := secret_key w; config := config w;
     session := session w; flashes := flashes w; disk := d;
     stdout := stdout w |}.

(** [flash(message, category)] *)
Definition flash (message category : string) (w : world) : world :=
  {| users_db := users_db w; secret_key := secret_key w; config := config w;
     session := session w; flashes := flashes w ++ [(category, message)];
     disk := disk w; stdout := stdout w |}.

(** [print(line)] *)
Definition print (line : string) (w : world) : world :=
  {| users_db := users_db w; secret_key := secret_key w; config := config w;
     session := session w; flashes := flashes w; disk := disk w;
     stdout := stdout w ++ [line] |}.

(** ** What a handler gives back *)

(** A response body.  An HTML page is represented by its heading and the
    values interpolated into its text; the markup is not modelled. *)
Inductive body : Type :=
  | Page (heading : string) (vals : list json)
  | Text (s : string)
  | Json (v : json)
  | Redirect (endpoint : string)
  | SendFile (file download_name : string).

Record response := {
  content : body;
  status : Z;
  headers : list (string * string);
}.

Inductive outcome : Type :=
  | Returned (r : response)
  | Raised (e : exn).

Definition reply (b : body) (code : Z) : response :=
  {| content := b; status := code; headers := [] |}.

Definition set_header (k v : string) (r : response) : response :=
  {| content := content r; status := status r;
     headers := headers r ++ [(k, v)] |}.

(** A dict display [{k1: v1, ...}]. *)
Definition dict (l : list (string * json)) : json := JObj (list_to_map l).

(** [jsonify(v)] with status 200, and [jsonify(v), code]. *)
Definition jsonify (v : json) : response := reply (Json v) 200.
Definition jsonify_with (v : json) (code : Z) : response := reply (Json v) code.

(** [jsonify({'error': msg}), code] *)
Definition error_reply (msg : string) (code : Z) : response :=
  jsonify_with (dict [("error", JStr msg)]) code.

(** A handler: an outcome and the state it leaves. *)
Definition handler := world → outcome * world.

Definition ret (r : response) : handler := λ w, (Returned r, w).
Definition raise (e : exn) : handler := λ w, (Raised e, w).

(** A Python string or [None]. *)
Definition jopt (o : option string) : json :=
  match o with Some s => JStr s | None => JNull end.
Definition jopt_int (o : option Z) : json :=
  match o with Some n => JInt n | None => JNull end.

(** Truth value of a string or [None]. *)
Definition nonempty (o : option string) : bool :=
  match o with Some s => negb (String.eqb s "") | None => false end.

(** ** Basic routes *)

Definition home : handler :=
  ret (reply (Page "Welcome to Flask Examples" []) 200).

Definition hello : handler :=
  ret (reply (Page "Hello, World!" []) 200).

Definition hello_name (name : string) : handler :=
  ret (reply (Page "Hello, {name}!" [JStr name]) 200).

Definition user_profile (username : string) (req : request) : handler :=
  ret (reply (Page "User Profile" [JStr username; JStr (now_ymd req)]) 200).

(** ** HTTP methods *)

(** A view that falls off its last branch returns [None], which the
    framework refuses with a [TypeError]. *)
Definition handle_data (req : request) : handler :=
  if String.eqb (method req) "GET" then
    ret (jsonify (dict [("message", JStr "GET request received");
                        ("data", JArr [JStr "item1"; JStr "item2"; JStr "item3"])]))
  else if String.eqb (method req) "POST" then
    ret (jsonify_with (dict [("message", JStr "POST request received");
                             ("received_data", get_json req);
                             ("timestamp", JStr (now_iso req))]) 201)
  else if String.eqb (method req) "PUT" then
    ret (jsonify (dict [("message", JStr "PUT request received");
                        ("updated_data", get_json req)]))
  else if String.eqb (method req) "DELETE" then
    ret (jsonify (dict [("message", JStr "DELETE request received");
                        ("status", JStr "deleted")]))
  else raise TypeError.

Definition search (req : request) : handler :=
  let query := default "" (args req !! "q") in
  let page := default 1 (args_int req !! "page") in
  let per_page := default 10 (args_int req !! "per_page") in
  let results :=
    (λ i : Z, JStr ("Result " +:+ pretty i +:+ " for '" +:+ query +:+ "'"))
      <$> seqZ 1 per_page in
  ret (jsonify (dict [("query", JStr query); ("page", JInt page);
                      ("per_page", JInt per_page); ("results", JArr results);
                      ("total", JInt 100)])).

(** ** Forms and uploads *)

Definition form_example (req : request) : handler :=
  if String.eqb (method req) "GET" then
    ret (reply (Page "Form Example" []) 200)
  else if String.eqb (method req) "POST" then
    ret (reply (Page "Form Submitted Successfully!"
                  [jopt (form req !! "name"); jopt (form req !! "email");
                   jopt_int (form_int req !! "age");
                   jopt (form req !! "message")]) 200)
  else raise TypeError.

Definition upload_file (req : request) : handler :=
  if String.eqb (method req) "GET" then
    ret (reply (Page "File Upload" []) 200)
  else if String.eqb (method req) "POST" then
    match files req !! "file" with
    | None => ret (reply (Text "No file selected") 400)
    | Some file =>
        let description := default "" (form req !! "description") in
        if String.eqb (filename file) "" then
          ret (reply (Text "No file selected") 400)
        else
          ret (reply (Page "File Upload Successful!"
                        [JStr (filename file); JStr (content_type file);
                         JStr description]) 200)
    end
  else raise TypeError.

(** ** Session management *)

Definition login (req : request) : handler := λ w,
  if String.eqb (method req) "GET" then
    match session w !! "username" with
    | Some name => ret (reply (Page "Already Logged In" [name]) 200) w
    | None => ret (reply (Page "Login" []) 200) w
    end
  else if String.eqb (method req) "POST" then
    let username := form req !! "username" in
    let password := form req !! "password" in
    if nonempty username && nonempty password then
      let w1 := set_session (<["username" := jopt username]> (session w)) w in
      let w2 := set_session (<["login_time" := JStr (now_iso req)]> (session w1)) w1 in
      let w3 := flash "Login successful!" "success" w2 in
      ret (reply (Redirect "profile") 302) w3
    else
      ret (reply (Redirect "login") 302) (flash "Invalid credentials!" "error" w)
  else raise TypeError w.

Definition profile : handler := λ w,
  match session w !! "username" with
  | None =>
      ret (reply (Redirect "login") 302) (flash "Please log in first!" "error" w)
  | Some name =>
      ret (reply (Page "User Profile"
                    [name; default (JStr "Unknown") (session w !! "login_time")])
             200) w
  end.

Definition logout : handler := λ w,
  let w1 := set_session (delete "username" (session w)) w in
  let w2 := set_session (delete "login_time" (session w1)) w1 in
  let w3 := flash "You have been logged out!" "info" w2 in
  ret (reply (Redirect "home") 302) w3.

(** ** The REST API over the mock user table *)

(** [next((u for u in users_db if u['id'] == user_id), None)]: the first
    user whose id equals [user_id], with its position in the list (the
    object found is the list's element, so a later update acts there). *)
Fixpoint next_user (user_id : Z) (db : list (gmap string json))
    : result (option (nat * gmap string json)) :=
  match db with
  | [] => Ok None
  | u :: rest =>
      v ← subscript "id" u;
      if eq_int v user_id then Ok (Some (0%nat, u))
      else found ← next_user user_id rest;
           Ok (option_map (λ '(i, x), (S i, x)) found)
  end.

(** [if user:] for what [next] gave: [None] and the empty dict are false. *)
Definition found_truthy (found : option (nat * gmap string json)) : bool :=
  match found with
  | Some (_, user) => truthy (JObj user)
  | None => false
  end.

Definition get_users : handler := λ w,
  ret (jsonify (dict [("users", JArr (JObj <$> users_db w));
                      ("total", JInt (Z.of_nat (length (users_db w))))])) w.

Definition get_user (user_id : Z) : handler := λ w,
  match next_user user_id (users_db w) with
  | Raise e => raise e w
  | Ok found =>
      match found with
      | Some (_, user) =>
          if found_truthy found then ret (jsonify (JObj user)) w
          else ret (error_reply "User not found" 404) w
      | None => ret (error_reply "User not found" 404) w
      end
  end.

(** [[u['id'] for u in users_db]] *)
Definition id_column (db : list (gmap string json)) : result (list json) :=
  mapM (subscript "id") db.

(** [max(ids) + 1] for a non-empty list.  On numbers it is the greatest
    plus one.  A list holding anything else ends in a [TypeError]: either
    the comparison inside [max] raises, or [max] returns a string, a list
    or [None], to which 1 cannot be added. *)
Definition max_plus_one (ids : list json) : result json :=
  match mapM num_of ids with
  | Some (n :: ns) => Ok (JInt (foldr Z.max n ns + 1))
  | _ => Raise TypeError
  end.

(** [max([u['id'] for u in users_db]) + 1 if users_db else 1] *)
Definition new_id (db : list (gmap string json)) : result json :=
  match db with
  | [] => Ok (JInt 1)
  | _ => ids ← id_column db; max_plus_one ids
  end.

(** The dict display of [create_user], evaluated left to right. *)
Definition new_user_of (data : json) (db : list (gmap string json))
    : result (gmap string json) :=
  i ← new_id db;
  name ← getitem "name" data;
  email ← getitem "email" data;
  age ← get_default "age" (JInt 0) data;
  Ok (list_to_map [("id", i); ("name", name); ("email", email); ("age", age)]).

(** [not data or 'name' not in data or 'email' not in data] *)
Definition missing_fields (data : json) : result bool :=
  if negb (truthy data) then Ok true
  else has_name ← contains "name" data;
       if negb has_name then Ok true
       else has_email ← contains "email" data;
            Ok (negb has_email).

Definition create_user (req : request) : handler := λ w,
  let data := get_json req in
  match missing_fields data with
  | Raise e => raise e w
  | Ok true => ret (error_reply "Name and email are required" 400) w
  | Ok false =>
      match new_user_of data (users_db w) with
      | Raise e => raise e w
      | Ok new_user =>
          ret (jsonify_with (JObj new_user) 201)
              (set_users_db (users_db w ++ [new_user]) w)
      end
  end.

(** [{k: v for k, v in data.items() if k in ['name', 'email', 'age']}] *)
Definition allowed_fields (o : gmap string json) : gmap string json :=
  filter (λ kv, kv.1 ∈ ["name"; "email"; "age"]) o.

(** [user.update(changes)]: the entries of [changes] replace or extend
    those of [user]. *)
Definition dict_update (changes user : gmap string json) : gmap string json :=
  changes ∪ user.

Definition update_user (user_id : Z) (req : request) : handler := λ w,
  match next_user user_id (users_db w) with
  | Raise e => raise e w
  | Ok found =>
      match found with
      | Some (i, user) =>
          if negb (found_truthy found) then
            ret (error_reply "User not found" 404) w
          else
            let data := get_json req in
            if negb (truthy data) then
              ret (error_reply "No data provided" 400) w
            else
              match items data with
              | Raise e => raise e w
              | Ok o =>
                  let user' := dict_update (allowed_fields o) user in
                  ret (jsonify (JObj user'))
                      (set_users_db (<[i := user']> (users_db w)) w)
              end
      | None => ret (error_reply "User not found" 404) w
      end
  end.

(** [[u for u in users_db if u['id'] != user_id]] *)
Fixpoint without_user (user_id : Z) (db : list (gmap string json))
    : result (list (gmap string json)) :=
  match db with
  | [] => Ok []
  | u :: rest =>
      v ← subscript "id" u;
      kept ← without_user user_id rest;
      Ok (if negb (eq_int v user_id) then u :: kept else kept)
  end.

Definition delete_user (user_id : Z) : handler := λ w,
  match next_user user_id (users_db w) with
  | Raise e => raise e w
  | Ok found =>
      if negb (found_truthy found) then
        ret (error_reply "User not found" 404) w
      else
        match without_user user_id (users_db w) with
        | Raise e => raise e w
        | Ok db' =>
            ret (jsonify (dict [("message", JStr "User deleted successfully")]))
                (set_users_db db' w)
        end
  end.

(** The table the module starts with. *)
Definition initial_users_db : list (gmap string json) :=
  [ list_to_map [("id", JInt 1); ("name", JStr "Alice Johnson");
                 ("email", JStr "alice@example.com"); ("age", JInt 28)];
    list_to_map [("id", JInt 2); ("name", JStr "Bob Smith");
                 ("email", JStr "bob@example.com"); ("age", JInt 32)];
    list_to_map [("id", JInt 3); ("name", JStr "Charlie Brown");
                 ("email", JStr "charlie@example.com"); ("age", JInt 25)] ].

(** ** Decorators, error handlers and hooks *)

Definition require_auth (f : handler) : handler := λ w,
  match session w !! "username" with
  | None => ret (error_reply "Authentication required" 401) w
  | Some _ => f w
  end.

Definition require_json (req : request) (f : handler) : handler := λ w,
  if negb (is_json req) then
    ret (error_reply "Content-Type must be application/json" 400) w
  else f w.

Definition protected_endpoint (req : request) : handler :=
  require_auth (λ w,
    match subscript "username" (session w) with
    | Raise e => raise e w
    | Ok user =>
        ret (jsonify (dict [("message", JStr "This is a protected endpoint");
                            ("user", user);
                            ("timestamp", JStr (now_iso req))])) w
    end).

Definition json_only_endpoint (req : request) : handler :=
  require_json req
    (ret (jsonify (dict [("message", JStr "JSON data received");
                         ("data", get_json req)]))).

Definition not_found (req : request) : handler :=
  if String.prefix "/api/" (path req) then
    ret (error_reply "Endpoint not found" 404)
  else ret (reply (Page "Page Not Found" []) 404).

Definition internal_error (req : request) : handler :=
  if String.prefix "/api/" (path req) then
    ret (error_reply "Internal server error" 500)
  else ret (reply (Page "Internal Server Error" []) 500).

Definition before_request (req : request) (w : world) : world :=
  print ("Request: " +:+ method req +:+ " " +:+ path req +:+ " from "
           +:+ remote_addr req) w.

Definition after_request (req : request) (r : response) : response :=
  let r1 := set_header "X-Response-Time" (elapsed req) r in
  if String.prefix "/api/" (path req) then
    set_header "Access-Control-Allow-Headers" "Content-Type, Authorization"
      (set_header "Access-Control-Allow-Methods" "GET, POST, PUT, DELETE, OPTIONS"
         (set_header "Access-Control-Allow-Origin" "*" r1))
  else r1.

(** ** Other response types *)

Definition download_data (req : request) : handler := λ w,
  let data := dict [("users", JArr (JObj <$> users_db w));
                    ("generated_at", JStr (now_iso req));
                    ("total_users", JInt (Z.of_nat (length (users_db w))))] in
  let filename := "users_data.json" in
  ret (reply (SendFile filename "users_data.json") 200)
      (set_disk (<[filename := data]> (disk w)) w).

Definition custom_response (req : request) : handler :=
  ret (set_header "Cache-Control" "no-cache"
         (set_header "X-Custom-Header" "CustomValue"
            (jsonify (dict [("message", JStr "Custom response");
                            ("timestamp", JStr (now_iso req))])))).

Definition template_example (req : request) : handler := λ w,
  ret (reply (Page "{{ title }}"
                [JStr "User Directory"; JStr (now_ymd req);
                 JArr (JObj <$> users_db w);
                 JInt (Z.of_nat (length (users_db w)))]) 200) w.

Definition health_check (req : request) : handler :=
  ret (jsonify (dict [("status", JStr "healthy");
                      ("timestamp", JStr (now_iso req));
                      ("version", JStr "1.0.0");
                      ("uptime", JStr "N/A");
                      ("database", JStr "connected");
                      ("memory_usage", JStr "N/A")])).

Definition endpoint_doc (p : string) (methods : list string) (d : string) : json :=
  dict [("path", JStr p); ("methods", JArr (JStr <$> methods));
        ("description", JStr d)].

Definition api_docs : handler :=
  ret (jsonify (dict
    [("title", JStr "Flask Example API");
     ("version", JStr "1.0.0");
     ("description",
      JStr "Comprehensive Flask application demonstrating various features");
     ("endpoints", JArr
        [endpoint_doc "/api/users" ["GET"; "POST"]
           "Get all users or create new user";
         endpoint_doc "/api/users/<id>" ["GET"; "PUT"; "DELETE"]
           "Get, update, or delete specific user";
         endpoint_doc "/api/protected" ["GET"]
           "Protected endpoint requiring authentication";
         endpoint_doc "/health" ["GET"] "Health check endpoint"])])).

(** ** The route table *)

(** A request after the framework's router resolved it: the view function
    and the arguments taken from the URL.  [NoRoute] is a URL no rule
    matches, which the framework answers through the 404 handler. *)
Inductive route : Type :=
  | RHome | RHello | RHelloName (name : string) | RUserProfile (username : string)
  | RHandleData | RSearch | RFormExample | RUploadFile
  | RLogin | RProfile | RLogout
  | RGetUsers | RGetUser (user_id : Z) | RCreateUser
  | RUpdateUser (user_id : Z) | RDeleteUser (user_id : Z)
  | RProtectedEndpoint | RJsonOnlyEndpoint
  | RDownloadData | RCustomResponse | RTemplateExample
  | RHealthCheck | RApiDocs
  | NoRoute.

Definition view (rt : route) (req : request) : handler :=
  match rt with
  | RHome => home
  | RHello => hello
  | RHelloName name => hello_name name
  | RUserProfile username => user_profile username req
  | RHandleData => handle_data req
  | RSearch => search req
  | RFormExample => form_example req
  | RUploadFile => upload_file req
  | RLogin => login req
  | RProfile => profile
  | RLogout => logout
  | RGetUsers => get_users
  | RGetUser user_id => get_user user_id
  | RCreateUser => create_user req
  | RUpdateUser user_id => update_user user_id req
  | RDeleteUser user_id => delete_user user_id
  | RProtectedEndpoint => protected_endpoint req
  | RJsonOnlyEndpoint => json_only_endpoint req
  | RDownloadData => download_data req
  | RCustomResponse => custom_response req
  | RTemplateExample => template_example req
  | RHealthCheck => health_check req
  | RApiDocs => api_docs
  | NoRoute => not_found req
  end.

(** One request through the application: the [before_request] hook, the
    view, and the [after_request] hook on the response the view returned. *)
Definition serve (rt : route) (req : request) : handler := λ w,
  match view rt req (before_request req w) with
  | (Returned r, w') => (Returned (after_request req r), w')
  | (Raised e, w') => (Raised e, w')
  end.

(** ** Vocabulary of the properties *)

(** The integer id of a user record, when it has one. *)
Definition id_of (u : gmap string json) : option Z :=
  match u !! "id" with
  | Some (JInt n) => Some n
  | _ => None
  end.

Definition has_id (user_id : Z) (u : gmap string json) : Prop :=
  id_of u = Some user_id.

#[global] Instance has_id_dec user_id u : Decision (has_id user_id u).
Proof. unfold has_id. apply _. Defined.

(** Every record of the table carries an integer id: true of the initial
    table and kept by every handler. *)
Definition well_formed (db : list (gmap string json)) : Prop :=
  Forall (λ u, is_Some (id_of u)) db.

(** The id column of the table. *)
Definition ids (db : list (gmap string json)) : list Z := omap id_of db.

(** The reading of the session claim: a step wrote no key but [username]. *)
Definition writes_only_username (w w' : world) : Prop :=
  ∀ k : string, k ≠ "username" → session w' !! k = session w !! k.

(** [s.lower()] on the ASCII letters, which is all a comparison with
    'true' can see. *)
Definition ascii_lower (c : ascii) : ascii :=
  let n := nat_of_ascii c in
  if (65 <=? n)%nat && (n <=? 90)%nat then ascii_of_nat (n + 32) else c.

Fixpoint str_lower (s : string) : string :=
  match s with
  | EmptyString => EmptyString
  | String c s' => String (ascii_lower c) (str_lower s')
  end.

(** [os.environ.get(name) or fallback] *)
Definition env_or (env : gmap string string) (name fallback : string) : string :=
  match env !! name with
  | Some v => if String.eqb v "" then fallback else v
  | None => fallback
  end.

(** The attributes of the class [Config], read from the environment of the
    process. *)
Definition Config (env : gmap string string) : gmap string json :=
  list_to_map
    [("SECRET_KEY", JStr (env_or env "SECRET_KEY" "dev-secret-key"));
     ("DATABASE_URL", JStr (env_or env "DATABASE_URL" "sqlite:///app.db"));
     ("DEBUG",
      JBool (String.eqb (str_lower (default "False" (env !! "FLASK_DEBUG"))) "true"));
     ("MAX_CONTENT_LENGTH", JInt (16 * 1024 * 1024))].

(** The state once the module is imported: [app.config.from_object(Config)]
    has replaced the key set at the top of the script by the one of
    [Config]; [config] holds the entries the script sets. *)
Definition world_after_import (env : gmap string string) : world :=
  {| users_db := initial_users_db;
     secret_key := env_or env "SECRET_KEY" "dev-secret-key";
     config := Config env; session := ∅; flashes := []; disk := ∅;
     stdout := [] |}.

(** The state after import in an environment that sets none of the three
    variables, and a request with nothing in it. *)
Definition initial_world : world := world_after_import ∅.

Definition empty_request (m p : string) : request :=
  {| method := m; path := p; remote_addr := "127.0.0.1"; args := ∅;
     args_int := ∅; form := ∅; form_int := ∅; files := ∅; get_json := JNull;
     is_json := false; now_iso := "2024-01-01T00:00:00";
     now_ymd := "2024-01-01 00:00:00"; elapsed := "0.0" |}.

Definition with_form (f : gmap string string) (req : request) : request :=
  {| method := method req; path := path req; remote_addr := remote_addr req;
     args := args req; args_int := args_int req; form := f;
     form_int := form_int req; files := files req; get_json := get_json req;
     is_json := is_json req; now_iso := now_iso req; now_ymd := now_ymd req;
     elapsed := elapsed req |}.

Definition with_json (v : json) (req : request) : request :=
  {| method := method req; path := path req; remote_addr := remote_addr req;
     args := args req; args_int := args_int req; form := form req;
     form_int := form_int req; files := files req; get_json := v;
     is_json := true; now_iso := now_iso req; now_ymd := now_ymd req;
     elapsed := elapsed req |}.

(** A record the scan for [user_id] stops at: its id equals [user_id]. *)
Definition targets (user_id : Z) (u : gmap string json) : Prop :=
  ∃ v, u !! "id" = Some v ∧ eq_int v user_id = true.

(** The table invariant: integer ids, pairwise distinct. *)
Definition unique_ids (db : list (gmap string json)) : Prop :=
  well_formed db ∧ NoDup (ids db).

(** A login request with both fields filled in. *)
Definition login_request : request :=
  with_form (<["username" := "alice"]> (<["password" := "secret"]> ∅))
    (empty_request "POST" "/login").

(** The reading of the module-state claim: a handler left every object
    bound at module level but the table as it was: the key and the
    configuration of [app], and the session behind the proxy [session]
    with the messages flashed into it. *)
Definition touches_only_users_db (w w' : world) : Prop :=
  secret_key w' = secret_key w ∧ config w' = config w
  ∧ session w' = session w ∧ flashes w' = flashes w.

(** What a scan found, without the position. *)
Definition found_user (r : result (option (nat * gmap string json)))
    : result (option (gmap string json)) :=
  match r with
  | Ok (Some (_, u)) => Ok (Some u)
  | Ok None => Ok None
  | Raise e => Raise e
  end.

(** A request whose JSON body is [v]. *)
Definition json_request (m p : string) (v : json) : request :=
  with_json v (empty_request m p).

(** A sequence of requests served one after the other. *)
Fixpoint serve_all (reqs : list (route * request)) (w : world) : world :=
  match reqs with
  | [] => w
  | (rt, req) :: rest => serve_all rest (serve rt req w).2
  end.
End Flask.

(* ===================================================================== *)
(** * [Requests.py]: the HTTP client examples                             *)
(* ===================================================================== *)

Module Requests.
Import Py.

(** ** The library as the script sees it *)

(** The exception classes the library and the decoder raise; [OtherError]
    is any class outside both families. *)
Inductive exn_class : Type :=
  | HTTPError | ConnectionError | ProxyError | SSLError
  | Timeout | ConnectTimeout | ReadTimeout
  | TooManyRedirects | InvalidURL
  | InvalidJSONError | RequestsJSONDecodeError
  | RequestException
  | JSONDecodeError
  | OtherError.

(** The classes of the [except] clauses, and [isinstance] against them,
    following the hierarchy of [requests.exceptions]:
    [ConnectTimeout] derives from both [ConnectionError] and [Timeout],
    and the library's own [JSONDecodeError] from both [InvalidJSONError]
    and [json.JSONDecodeError]. *)
Definition is_HTTPError (c : exn_class) : bool :=
  match c with HTTPError => true | _ => false end.

Definition is_ConnectionError (c : exn_class) : bool :=
  match c with
  | ConnectionError | ProxyError | SSLError | ConnectTimeout => true
  | _ => false
  end.

Definition is_Timeout (c : exn_class) : bool :=
  match c with
  | Timeout | ConnectTimeout | ReadTimeout => true
  | _ => false
  end.

Definition is_RequestException (c : exn_class) : bool :=
  match c with
  | JSONDecodeError | OtherError => false
  | _ => true
  end.

Definition is_JSONDecodeError (c : exn_class) : bool :=
  match c with
  | JSONDecodeError | RequestsJSONDecodeError => true
  | _ => false
  end.

(** What [response.json()] does: the decoded body, or the exception the
    decoder raises. *)
Inductive decoded : Type :=
  | Decoded (v : json)
  | Undecodable (c : exn_class) (msg : string).

Record Response := {
  status_code : Z;
  reason : string;
  url : string;
  headers : list (string * string);
  text : string;
  json_ : decoded;
}.

(** A raised exception: its class, [str(e)], and [e.response]. *)
Record raised := {
  cls : exn_class;
  str : string;
  response : option Response;
}.

(** What one HTTP exchange does: the library returns a response or raises. *)
Inductive exchange : Type :=
  | Answers (r : Response)
  | Fails (e : raised).

(** The network: the exchange a method and a URL lead to. *)
Definition network := string → string → exchange.

(** What a function does to the outside, in order. *)
Inductive event : Type :=
  | EvPrint (line : string)
  | EvRequest (method url : string) (timeout : option Z).

(** How a call ends. *)
Inductive ending (A : Type) : Type :=
  | Returns (a : A)
  | Propagates (e : raised).
Arguments Returns {A} a.
Arguments Propagates {A} e.

(** [response.raise_for_status()]: statuses 400 to 599 raise [HTTPError]
    carrying the response. *)
Definition http_error_of (r : Response) : option raised :=
  if (400 <=? status_code r) && (status_code r <? 500) then
    Some {| cls := HTTPError;
            str := pretty (status_code r) +:+ " Client Error: " +:+ reason r
                     +:+ " for url: " +:+ url r;
            response := Some r |}
  else if (500 <=? status_code r) && (status_code r <? 600) then
    Some {| cls := HTTPError;
            str := pretty (status_code r) +:+ " Server Error: " +:+ reason r
                     +:+ " for url: " +:+ url r;
            response := Some r |}
  else None.

(** [response.ok], which is also the truth value of a response. *)
Definition ok (r : Response) : bool :=
  match http_error_of r with Some _ => false | None => true end.

Definition lower (c : ascii) : ascii :=
  let n := nat_of_ascii c in
  if (65 <=? n)%nat && (n <=? 90)%nat then ascii_of_nat (n + 32) else c.

Fixpoint lowercase (s : string) : string :=
  match s with
  | EmptyString => EmptyString
  | String c s' => String (lower c) (lowercase s')
  end.

(** [headers.get(name, '')] on the case-insensitive header dict. *)
Definition header_get (name : string) (hs : list (string * string)) : string :=
  match List.find (λ kv, String.eqb (lowercase kv.1) (lowercase name)) hs with
  | Some kv => kv.2
  | None => ""
  end.

(** ** 11. Error handling *)

Definition error_dict (error_type : string) (extra : list (string * json))
    (message : string) : json :=
  JObj (list_to_map ([("success", JBool false); ("error_type", JStr error_type)]
                       ++ extra ++ [("message", JStr message)])).

(** The [except] clauses of [make_request_with_error_handling], tried in
    the order they are written; an exception none of them matches goes on
    to the caller. *)
Definition handle_error (e : raised) : ending json :=
  if is_HTTPError (cls e) then
    Returns (error_dict "HTTP Error"
               [("status_code",
                 match response e with
                 | Some r => if ok r then JInt (status_code r) else JNull
                 | None => JNull
                 end)]
               (str e))
  else if is_ConnectionError (cls e) then
    Returns (error_dict "Connection Error" [] "Failed to connect to the server")
  else if is_Timeout (cls e) then
    Returns (error_dict "Timeout Error" [] "Request timed out")
  else if is_RequestException (cls e) then
    Returns (error_dict "Request Error" [] (str e))
  else if is_JSONDecodeError (cls e) then
    Returns (error_dict "JSON Decode Error" [] "Invalid JSON response")
  else Propagates e.

(** The body of the [try]: the request, the status check, the result. *)
Definition try_request (net : network) (url : string) : json + raised :=
  match net "GET" url with
  | Fails e => inr e
  | Answers r =>
      match http_error_of r with
      | Some e => inr e
      | None =>
          let data :=
            if String.prefix "application/json" (header_get "content-type" (headers r))
            then match json_ r with
                 | Decoded v => inl v
                 | Undecodable c msg =>
                     inr {| cls := c; str := msg; response := None |}
                 end
            else inl (JStr (text r)) in
          match data with
          | inr e => inr e
          | inl d =>
              inl (JObj (list_to_map
                     [("success", JBool true);
                      ("status_code", JInt (status_code r));
                      ("data", d);
                      ("headers", JObj (list_to_map
                                          (prod_map id JStr <$> headers r)))]))
          end
      end
  end.

Definition make_request_with_error_handling (net : network) (url : string)
    : ending json * list event :=
  (match try_request net url with
   | inl result => Returns result
   | inr e => handle_error e
   end,
   [EvRequest "GET" url (Some 5)]).

(** ** 12. Retry configuration *)

(** [urllib3.util.retry.Retry], with the fields the script sets. *)
Record Retry := {
  total : Z;
  status_forcelist : list Z;
  method_whitelist : list string;
  backoff_factor : Z;
}.

Record HTTPAdapter := { max_retries : Retry }.

(** [HTTPAdapter()] : no retries. *)
Definition default_adapter : HTTPAdapter :=
  {| max_retries :=
       {| total := 0; status_forcelist := [];
          method_whitelist := ["HEAD"; "GET"; "PUT"; "DELETE"; "OPTIONS"; "TRACE"];
          backoff_factor := 0 |} |}.

(** A [requests.Session]: the headers the script has set on it and its
    adapters, an ordered dictionary from URL prefix to adapter.  The four
    headers the library itself starts a session with (User-Agent,
    Accept-Encoding, Accept, Connection), whose values change with its
    release, are not listed. *)
Record Session := {
  session_headers : list (string * string);
  adapters : list (string * HTTPAdapter);
}.

(** [d[k] = v] on an ordered dictionary: an existing key keeps its place. *)
Fixpoint assign {A} (k : string) (v : A) (d : list (string * A))
    : list (string * A) :=
  match d with
  | [] => [(k, v)]
  | (k', v') :: rest =>
      if String.eqb k' k then (k, v) :: rest else (k', v') :: assign k v rest
  end.

(** [session.mount(prefix, adapter)]: register the adapter, then move the
    shorter prefixes behind it. *)
Definition mount (prefix : string) (adapter : HTTPAdapter) (s : Session)
    : Session :=
  let d := assign prefix adapter (adapters s) in
  let shorter kv := (String.length kv.1 <? String.length prefix)%nat in
  {| session_headers := session_headers s;
     adapters := List.filter (λ kv, negb (shorter kv)) d ++ List.filter shorter d |}.

(** [requests.Session()] *)
Definition new_session : Session :=
  mount "http://" default_adapter
    (mount "https://" default_adapter
       {| session_headers := []; adapters := [] |}).


(** Which [urllib3] the script runs on.  [Retry] takes the keyword
    [method_whitelist] up to the 1.26 series; 2.0 removed it (its name there
    is [allowed_methods]), and a call that passes it raises [TypeError]. *)
Inductive urllib3_release : Type :=
  | Before_2_0
  | From_2_0.

(** The calls into the library, in the order they are made. *)
Inductive lib_call : Type :=
  | CallSession
  | CallRetry
  | CallHTTPAdapter
  | CallMount (prefix : string).

(** A computation that calls the library: what it gives, or the exception
    that ends it, and the calls made so far. *)
Definition lib (A : Type) : Type := (result A * list lib_call)%type.

#[global] Instance lib_ret : MRet lib := λ A a, (Ok a, []).
#[global] Instance lib_bind : MBind lib := λ A B f m,
  match m with
  | (Ok a, made) => let '(r, more) := f a in (r, made ++ more)
  | (Raise e, made) => (Raise e, made)
  end.

(** [requests.Session()] *)
Definition Session_ : lib Session := (Ok new_session, [CallSession]).

(** [Retry(total=..., status_forcelist=..., method_whitelist=...,
    backoff_factor=...)] *)
Definition Retry_ (release : urllib3_release) (total : Z)
    (status_forcelist : list Z) (method_whitelist : list string)
    (backoff_factor : Z) : lib Retry :=
  (match release with
   | Before_2_0 =>
       Ok {| total := total; status_forcelist := status_forcelist;
             method_whitelist := method_whitelist;
             backoff_factor := backoff_factor |}
   | From_2_0 => Raise TypeError
   end,
   [CallRetry]).

(** [HTTPAdapter(max_retries=...)] *)
Definition HTTPAdapter_ (max_retries : Retry) : lib HTTPAdapter :=
  (Ok {| max_retries := max_retries |}, [CallHTTPAdapter]).

(** [session.mount(prefix, adapter)], which changes the session in place. *)
Definition mount_ (prefix : string) (adapter : HTTPAdapter) (s : Session)
    : lib Session :=
  (Ok (mount prefix adapter s), [CallMount prefix]).

Definition create_session_with_retries (release : urllib3_release)
    : lib Session :=
  session ← Session_;
  retry_strategy ← Retry_ release 3 [429; 500; 502; 503; 504]
                      ["HEAD"; "GET"; "OPTIONS"] 1;
  adapter ← HTTPAdapter_ retry_strategy;
  session ← mount_ "http://" adapter session;
  session ← mount_ "https://" adapter session;
  mret session.

(** ** 17. REST API client *)

(** [s.lstrip(c)] and [s.rstrip(c)] for a one-character set. *)
Fixpoint lstrip (c : ascii) (s : string) : string :=
  match s with
  | EmptyString => EmptyString
  | String a s' => if Ascii.eqb a c then lstrip c s' else s
  end.

Fixpoint rstrip (c : ascii) (s : string) : string :=
  match s with
  | EmptyString => EmptyString
  | String a s' =>
      match rstrip c s' with
      | EmptyString => if Ascii.eqb a c then EmptyString else String a EmptyString
      | t => String a t
      end
  end.

Record APIClient := {
  base_url : string;
  session : Session;
  timeout : Z;
}.

(** [session.headers.update({...})] *)
Definition headers_update (new : list (string * string)) (s : Session) : Session :=
  {| session_headers := foldl (λ d kv, assign kv.1 kv.2 d) (session_headers s) new;
     adapters := adapters s |}.

(** [APIClient(base_url, api_key, timeout)] *)
Definition APIClient_init (base_url : string) (api_key : option string)
    (timeout : Z) : APIClient :=
  let s := headers_update [("Content-Type", "application/json");
                           ("Accept", "application/json");
                           ("User-Agent", "APIClient/1.0")] new_session in
  let s := match api_key with
           | Some key =>
               if negb (String.eqb key "")
               then headers_update [("Authorization", "Bearer " +:+ key)] s
               else s
           | None => s
           end in
  {| base_url := rstrip "/" base_url; session := s; timeout := timeout |}.

(** The URL [_make_request] builds. *)
Definition request_url (self : APIClient) (endpoint : string) : string :=
  base_url self +:+ "/" +:+ lstrip "/" endpoint.

(** What [_make_request] returns: the decoded body, or the text. *)
Inductive payload : Type :=
  | Parsed (v : json)
  | Raw (s : string).

(** The body of the outer [try] of [_make_request]: the request, the
    status check, and the inner [try] that falls back to the text. *)
Definition send (net : network) (method url : string) : payload + raised :=
  match net method url with
  | Fails e => inr e
  | Answers r =>
      match http_error_of r with
      | Some e => inr e
      | None =>
          match json_ r with
          | Decoded v => inl (Parsed v)
          | Undecodable c msg =>
              if is_JSONDecodeError c then inl (Raw (text r))
              else inr {| cls := c; str := msg; response := None |}
          end
      end
  end.

Definition _make_request (net : network) (self : APIClient)
    (method endpoint : string) : ending payload * list event :=
  let url := request_url self endpoint in
  let sent := EvRequest method url (Some (timeout self)) in
  match send net method url with
  | inl v => (Returns v, [sent])
  | inr e =>
      if is_RequestException (cls e)
      then (Propagates e, [sent; EvPrint ("API Error: " +:+ str e)])
      else (Propagates e, [sent])
  end.

Definition get (net : network) (self : APIClient) (endpoint : string) :=
  _make_request net self "GET" endpoint.
Definition post (net : network) (self : APIClient) (endpoint : string) :=
  _make_request net self "POST" endpoint.
Definition put (net : network) (self : APIClient) (endpoint : string) :=
  _make_request net self "PUT" endpoint.
Definition delete (net : network) (self : APIClient) (endpoint : string) :=
  _make_request net self "DELETE" endpoint.

(** ** 18. Rate limiting *)

(** Times and intervals are binary64 numbers, as [time.time()] and
    [1.0 / requests_per_second] give them; the arithmetic is that of the
    machine. *)
Record RateLimitedClient := {
  min_interval : float;
  last_request_time : float;
}.

(** [RateLimitedClient(requests_per_second)], for a rate given as a
    binary64 number: [1.0 / 0] raises. *)
Definition RateLimitedClient_init (requests_per_second : float)
    : result RateLimitedClient :=
  if PrimFloat.eqb requests_per_second 0 then Raise ZeroDivisionError
  else Ok {| min_interval := 1 / requests_per_second;
             last_request_time := 0 |}.

(** What the surroundings give during one call of [make_request]: the
    reading of [time.time()] on entry, how the exchange ends, and the
    reading of [time.time()] after a response. *)
Record call := {
  call_url : string;
  entry_time : float;
  exchange_of : exchange;
  return_time : float;
}.

(** What one call did: the time it measured since the last recorded
    request, the argument of [time.sleep] when it slept (it then also
    prints a line), and whether the exchange gave a response. *)
Record served := {
  measured : float;
  slept : option float;
  answered : bool;
}.

(** [make_request]: the record of the call and the client after it.
    [time.sleep] is taken to accept its argument. *)
Definition make_request (self : RateLimitedClient) (c : call)
    : served * RateLimitedClient :=
  let current_time := entry_time c in
  let time_since_last := (current_time - last_request_time self)%float in
  let nap :=
    if PrimFloat.ltb time_since_last (min_interval self) then
      let sleep_time := (min_interval self - time_since_last)%float in
      Some sleep_time
    else None in
  match exchange_of c with
  | Answers _ =>
      ({| measured := time_since_last; slept := nap; answered := true |},
       {| min_interval := min_interval self;
          last_request_time := return_time c |})
  | Fails _ =>
      ({| measured := time_since_last; slept := nap; answered := false |},
       self)
  end.

(** A sequence of calls on one client. *)
Fixpoint run (self : RateLimitedClient) (calls : list call) : list served :=
  match calls with
  | [] => []
  | c :: rest =>
      let '(s, self') := make_request self c in
      s :: run self' rest
  end.

(** ** Vocabulary of the properties *)

Definition printed (trace : list event) : Prop :=
  ∃ line, EvPrint line ∈ trace.

(** A structured error value: a dict whose 'success' entry is [False]. *)
Definition is_error_value (v : json) : Prop :=
  ∃ d, v = JObj d ∧ d !! "success" = Some (JBool false).

(** The reading of the error-handling claim: the failure is answered by a
    printed line, no error value goes back to the caller and nothing is
    raised again. *)
Definition handled_by_printing_only {A} (is_error : A → Prop)
    (out : ending A * list event) : Prop :=
  printed out.2
  ∧ (∀ v, out.1 = Returns v → ¬ is_error v)
  ∧ (∀ e, out.1 ≠ Propagates e).

(** A network on which every connection is refused, and one that answers
    every request with an empty JSON object. *)
Definition refused : raised :=
  {| cls := ConnectionError; str := "Connection refused"; response := None |}.

Definition unreachable : network := λ _ _, Fails refused.

Definition empty_answer : Response :=
  {| status_code := 200; reason := "OK"; url := "";
     headers := [("Content-Type", "application/json")]; text := "{}";
     json_ := Decoded (JObj ∅) |}.

(** The URL of the first request in a trace. *)
Definition requested_url (trace : list event) : option string :=
  match List.find (λ ev, match ev with EvRequest _ _ _ => true | _ => false end)
          trace with
  | Some (EvRequest _ u _) => Some u
  | _ => None
  end.

(** [n] copies of a character. *)
Fixpoint copies (n : nat) (c : ascii) : string :=
  match n with
  | O => EmptyString
  | S n' => String c (copies n' c)
  end.

(** A call of the rate limiter at a given reading of the clock; a
    response comes back at the second reading. *)
Definition call_at (t : float) (x : exchange) (t' : float) : call :=
  {| call_url := "https://jsonplaceholder.typicode.com/posts/1";
     entry_time := t; exchange_of := x; return_time := t' |}.

(** ** 14 and 15. Downloads and streams *)

(** What [requests.get(url, stream=True)] gives: the response, the chunks
    [iter_content] yields and, when the connection breaks, the exception it
    raises after them. *)
Record Stream := {
  head : Response;
  chunks : list string;
  broken : option raised;
}.

Inductive streaming : Type :=
  | Streams (s : Stream)
  | Refuses (e : raised).

(** The loop of [stream_large_response] from a given [chunk_count]: the
    count after it and the lines it prints. *)
Fixpoint show_chunks (chunk_count : Z) (cs : list string) : Z * list event :=
  match cs with
  | [] => (chunk_count, [])
  | chunk :: rest =>
      if negb (String.eqb chunk "") then
        let chunk_count := chunk_count + 1 in
        let line :=
          if chunk_count <=? 5 then
            [EvPrint ("Chunk " +:+ pretty chunk_count +:+ ": "
                        +:+ pretty (String.length chunk) +:+ " bytes")]
          else if chunk_count =? 6 then [EvPrint "... (more chunks)"]
          else [] in
        let '(n, out) := show_chunks chunk_count rest in
        (n, line ++ out)
      else show_chunks chunk_count rest
  end.

Definition stream_large_response (net : string → streaming) (url : string)
    : ending unit * list event :=
  let sent := EvRequest "GET" url None in
  let failed (out : list event) (e : raised) :=
    if is_RequestException (cls e)
    then (Returns tt, sent :: out ++ [EvPrint ("Streaming Error: " +:+ str e)])
    else (Propagates e, sent :: out) in
  match net url with
  | Refuses e => failed [] e
  | Streams s =>
      match http_error_of (head s) with
      | Some e => failed [] e
      | None =>
          let '(chunk_count, out) := show_chunks 0 (chunks s) in
          match broken s with
          | Some e => failed out e
          | None =>
              (Returns tt,
               sent :: out ++ [EvPrint ("Total chunks processed: "
                                          +:+ pretty chunk_count)])
          end
      end
  end.

(** [headers.get(name)] without a default. *)
Definition header_lookup (name : string) (hs : list (string * string))
    : option string :=
  snd <$> List.find (λ kv, String.eqb (lowercase kv.1) (lowercase name)) hs.

(** The loop of [download_file]: the bytes written, the size downloaded
    and the progress lines printed.  [show] stands for the formatting of
    the percentage, which is floating-point arithmetic. *)
Fixpoint write_chunks (show : Z → Z → string) (total_size downloaded_size : Z)
    (cs : list string) : string * Z * list event :=
  match cs with
  | [] => ("", downloaded_size, [])
  | chunk :: rest =>
      if negb (String.eqb chunk "") then
        let downloaded_size := downloaded_size + Z.of_nat (String.length chunk) in
        let line :=
          if 0 <? total_size
          then [EvPrint (show downloaded_size total_size)] else [] in
        let '(written, n, out) :=
          write_chunks show total_size downloaded_size rest in
        (chunk +:+ written, n, line ++ out)
      else write_chunks show total_size downloaded_size rest
  end.

(** [download_file(url, filename)] on a disk that maps file names to
    contents.  [to_int] is the builtin [int] on strings, which gives the
    number or the [ValueError] it raises; opening the file for writing is
    taken to succeed. *)
Definition download_file (to_int : string → Z + raised) (show : Z → Z → string)
    (net : string → streaming) (url filename : string)
    (disk : gmap string string)
    : ending bool * list event * gmap string string :=
  let sent := EvRequest "GET" url None in
  let failed (out : list event) (e : raised) (disk' : gmap string string) :=
    if is_RequestException (cls e)
    then (Returns false, sent :: out ++ [EvPrint ("Download Error: " +:+ str e)],
          disk')
    else (Propagates e, sent :: out, disk') in
  match net url with
  | Refuses e => failed [] e disk
  | Streams s =>
      match http_error_of (head s) with
      | Some e => failed [] e disk
      | None =>
          let size :=
            match header_lookup "content-length" (headers (head s)) with
            | Some v => to_int v
            | None => inl 0
            end in
          match size with
          | inr e => failed [] e disk
          | inl total_size =>
              let '(written, _, out) :=
                write_chunks show total_size 0 (chunks s) in
              let disk' := <[filename := written]> disk in
              match broken s with
              | Some e => failed out e disk'
              | None =>
                  (Returns true,
                   sent :: out ++ [EvPrint (String "010" ("Download completed: " +:+ filename))],
                   disk')
              end
          end
      end
  end.

(** The chunks in order, as one string. *)
Definition joined (cs : list string) : string :=
  foldr (λ c acc, c +:+ acc) "" cs.

(** The error type an outcome reports, when it is an error value. *)
Definition error_type_of (out : ending json) : option string :=
  match out with
  | Returns (JObj d) =>
      match d !! "error_type" with
      | Some (JStr t) => Some t
      | _ => None
      end
  | _ => None
  end.

(** The chunks that count: the non-empty ones. *)
Definition nonempty_chunks (cs : list string) : list string :=
  List.filter (λ c, negb (String.eqb c "")) cs.

(** The lines among the events. *)
Definition lines (trace : list event) : list string :=
  omap (λ ev, match ev with EvPrint l => Some l | _ => None end) trace.

(** A stream that arrives whole, with status 200. *)
Definition whole (cs : list string) : streaming :=
  Streams {| head := empty_answer; chunks := cs; broken := None |}.

(** A stream that breaks after its chunks. *)
Definition cut (cs : list string) : streaming :=
  Streams {| head := empty_answer; chunks := cs;
             broken := Some {| cls := ConnectionError; str := "Connection broken";
                               response := None |} |}.
End Requests.

(* ===================================================================== *)
(** * Properties of the web application                                   *)
(* ===================================================================== *)

Module FlaskProps.
Import Py Flask.

(** ** The scan of the user table *)

Lemma has_id_subscript user_id u :
  has_id user_id u → subscript "id" u = Ok (JInt user_id).
Proof.
  unfold has_id, id_of, subscript.
  destruct (u !! "id") as [[]|]; naive_solver.
Qed.

Lemma id_of_subscript u n :
  id_of u = Some n → subscript "id" u = Ok (JInt n).
Proof. apply has_id_subscript. Qed.

Lemma eq_int_JInt n user_id : eq_int (JInt n) user_id = bool_decide (n = user_id).
Proof.
  unfold eq_int; simpl. destruct (Z.eqb_spec n user_id).
  - by rewrite bool_decide_eq_true_2.
  - by rewrite bool_decide_eq_false_2.
Qed.

Lemma has_id_truthy user_id u : has_id user_id u → truthy (JObj u) = true.
Proof.
  unfold has_id, id_of. intros H. simpl.
  rewrite bool_decide_eq_false_2; [done|].
  intros ->. by rewrite lookup_empty in H.
Qed.

(** The scan stops at the first record with the id. *)
Lemma next_user_first user_id pre u post :
  well_formed pre →
  Forall (λ v, ¬ has_id user_id v) pre →
  has_id user_id u →
  next_user user_id (pre ++ u :: post) = Ok (Some (length pre, u)).
Proof.
  intros Hwf Hpre Hu.
  induction pre as [|v pre IH]; simpl.
  - rewrite (has_id_subscript _ _ Hu). simpl.
    rewrite eq_int_JInt, bool_decide_eq_true_2; done.
  - inversion_clear Hwf as [|? ? [n Hn] Hwf'].
    inversion_clear Hpre as [|? ? Hv Hpre'].
    rewrite (id_of_subscript _ _ Hn). simpl.
    rewrite eq_int_JInt, bool_decide_eq_false_2.
    + rewrite (IH Hwf' Hpre'). done.
    + intros ->. by apply Hv.
Qed.

(** Without such a record the scan reaches the end. *)
Lemma next_user_none user_id db :
  well_formed db →
  Forall (λ v, ¬ has_id user_id v) db →
  next_user user_id db = Ok None.
Proof.
  intros Hwf Hno.
  induction db as [|v db IH]; simpl; [done|].
  inversion_clear Hwf as [|? ? [n Hn] Hwf'].
  inversion_clear Hno as [|? ? Hv Hno'].
  rewrite (id_of_subscript _ _ Hn). simpl.
  rewrite eq_int_JInt, bool_decide_eq_false_2.
  - by rewrite (IH Hwf' Hno').
  - intros ->. by apply Hv.
Qed.

(** A table that holds the id splits at its first record with it. *)
Lemma first_with_id user_id db :
  Exists (has_id user_id) db →
  ∃ pre u post, db = pre ++ u :: post
    ∧ Forall (λ v, ¬ has_id user_id v) pre ∧ has_id user_id u.
Proof.
  induction 1 as [u db Hu | v db _ IH].
  - by exists [], u, db.
  - destruct (decide (has_id user_id v)) as [Hv|Hv].
    + by exists [], v, db.
    + destruct IH as (pre & u & post & -> & Hpre & Hu).
      exists (v :: pre), u, post. split_and!; [done| by constructor | done].
Qed.

Lemma well_formed_app_l pre post : well_formed (pre ++ post) → well_formed pre.
Proof. unfold well_formed. rewrite Forall_app. tauto. Qed.

(** C3: [get_user] is a linear scan of [users_db]: it answers with the
    first record whose id is [user_id] when the table has one, and with the
    error 'User not found' and status 404 when it has none. *)
Theorem get_user_linear_scan (user_id : Z) (w : world) :
  well_formed (users_db w) →
  (∀ pre u post,
      users_db w = pre ++ u :: post →
      Forall (λ v, ¬ has_id user_id v) pre →
      has_id user_id u →
      get_user user_id w = (Returned (jsonify (JObj u)), w))
  ∧ (Forall (λ v, ¬ has_id user_id v) (users_db w) →
      get_user user_id w = (Returned (error_reply "User not found" 404), w)).
Proof.
  intros Hwf. split.
  - intros pre u post Hdb Hpre Hu. unfold get_user.
    rewrite Hdb in Hwf |- *.
    rewrite (next_user_first _ _ _ _ (well_formed_app_l _ _ Hwf) Hpre Hu).
    unfold found_truthy. by rewrite (has_id_truthy _ _ Hu).
  - intros Hno. unfold get_user. by rewrite (next_user_none _ _ Hwf Hno).
Qed.

Lemma initial_well_formed : well_formed initial_users_db.
Proof. repeat constructor; by eexists. Qed.

Lemma get_user_linear_scan_witness :
  well_formed (users_db initial_world)
  ∧ get_user 2 initial_world
    = (Returned (jsonify (JObj (list_to_map
         [("id", JInt 2); ("name", JStr "Bob Smith");
          ("email", JStr "bob@example.com"); ("age", JInt 32)]))),
       initial_world)
  ∧ get_user 7 initial_world
    = (Returned (error_reply "User not found" 404), initial_world).
Proof.
  pose proof (get_user_linear_scan 2 initial_world initial_well_formed) as [H2 _].
  pose proof (get_user_linear_scan 7 initial_world initial_well_formed) as [_ H7].
  split; [exact initial_well_formed|]. split.
  - eapply (H2 [_] _ [_]); [reflexivity| |reflexivity].
    repeat constructor. by vm_compute.
  - apply H7. repeat constructor; by vm_compute.
Defined.

(** ** Deletion *)

Lemma without_user_filter user_id db :
  well_formed db →
  without_user user_id db = Ok (filter (λ u, ¬ has_id user_id u) db).
Proof.
  intros Hwf. induction db as [|v db IH]; simpl; [done|].
  inversion_clear Hwf as [|? ? [n Hn] Hwf'].
  rewrite (id_of_subscript _ _ Hn), (IH Hwf'). simpl.
  rewrite eq_int_JInt, filter_cons.
  destruct (decide (n = user_id)) as [->|Hne].
  - rewrite bool_decide_eq_true_2 by done. simpl.
    rewrite decide_False; [done|]. intros Hv. by apply Hv.
  - rewrite bool_decide_eq_false_2 by done. simpl.
    rewrite decide_True; [done|]. unfold has_id. rewrite Hn. naive_solver.
Qed.

(** C6: [delete_user] removes exactly the records whose id is [user_id]
    and reports success when the table has such a record; when it has none
    it answers 404 and leaves the table as it was. *)
Theorem delete_user_total (user_id : Z) (w : world) :
  well_formed (users_db w) →
  (Exists (has_id user_id) (users_db w) →
     delete_user user_id w
     = (Returned (jsonify (dict [("message", JStr "User deleted successfully")])),
        set_users_db (filter (λ u, ¬ has_id user_id u) (users_db w)) w))
  ∧ (Forall (λ v, ¬ has_id user_id v) (users_db w) →
     delete_user user_id w
     = (Returned (error_reply "User not found" 404), w)
     ∧ users_db (delete_user user_id w).2 = users_db w).
Proof.
  intros Hwf. split.
  - intros Hex. unfold delete_user.
    destruct (first_with_id _ _ Hex) as (pre & u & post & Hdb & Hpre & Hu).
    rewrite (without_user_filter _ _ Hwf).
    rewrite Hdb in Hwf |- *.
    rewrite (next_user_first _ _ _ _ (well_formed_app_l _ _ Hwf) Hpre Hu).
    unfold found_truthy. by rewrite (has_id_truthy _ _ Hu).
  - intros Hno. unfold delete_user.
    by rewrite (next_user_none _ _ Hwf Hno).
Qed.

Lemma delete_user_total_witness :
  well_formed (users_db initial_world)
  ∧ ids (users_db (delete_user 2 initial_world).2) = [1; 3]
  ∧ delete_user 9 initial_world
    = (Returned (error_reply "User not found" 404), initial_world).
Proof.
  pose proof (delete_user_total 2 initial_world initial_well_formed) as [H2 _].
  pose proof (delete_user_total 9 initial_world initial_well_formed) as [_ H9].
  split; [exact initial_well_formed|]. split.
  - rewrite H2; [by vm_compute|].
    apply Exists_cons_tl, Exists_cons_hd. by vm_compute.
  - apply H9. repeat constructor; by vm_compute.
Defined.

(** ** Update *)

Lemma next_user_Some user_id db i u :
  next_user user_id db = Ok (Some (i, u)) →
  db !! i = Some u ∧ targets user_id u.
Proof.
  revert i. induction db as [|v db IH]; intros i; simpl; [done|].
  unfold subscript. destruct (v !! "id") as [x|] eqn:Hx; simpl; [|done].
  destruct (eq_int x user_id) eqn:Heq.
  - intros [= <- <-]. split; [done|]. by exists x.
  - destruct (next_user user_id db) as [[[j u']|]|]; simpl; try done.
    intros [= <- <-]. by apply IH.
Qed.

Lemma allowed_fields_lookup_other (o : gmap string json) (k : string) :
  k ∉ ["name"; "email"; "age"] → allowed_fields o !! k = None.
Proof.
  intros Hk. unfold allowed_fields.
  apply map_lookup_filter_None. right. intros v _. done.
Qed.

Lemma dict_update_lookup_other (o u : gmap string json) (k : string) :
  k ∉ ["name"; "email"; "age"] →
  dict_update (allowed_fields o) u !! k = u !! k.
Proof.
  intros Hk. unfold dict_update.
  rewrite lookup_union_r; [done|]. by apply allowed_fields_lookup_other.
Qed.

Lemma id_not_allowed : "id" ∉ ["name"; "email"; "age"].
Proof. rewrite !not_elem_of_cons. split_and!; try done. apply not_elem_of_nil. Qed.

Lemma id_of_dict_update (o u : gmap string json) :
  id_of (dict_update (allowed_fields o) u) = id_of u.
Proof.
  unfold id_of. by rewrite (dict_update_lookup_other _ _ _ id_not_allowed).
Qed.

(** What [update_user] does to the table: nothing, or it replaces the
    record the scan found by its update. *)
Lemma update_user_cases user_id req w :
  (update_user user_id req w).2 = w
  ∨ ∃ i u o, users_db w !! i = Some u ∧ targets user_id u
      ∧ get_json req = JObj o
      ∧ (update_user user_id req w).2
        = set_users_db (<[i := dict_update (allowed_fields o) u]> (users_db w)) w.
Proof.
  unfold update_user.
  destruct (next_user user_id (users_db w)) as [[[i u]|]|] eqn:Hnext;
    [|by left..].
  destruct (negb (found_truthy _)); [by left|].
  destruct (negb (truthy _)); [by left|].
  destruct (get_json req) as [| | | | |o] eqn:Hdata; simpl; try by left.
  right. exists i, u, o. by destruct (next_user_Some _ _ _ _ Hnext).
Qed.

(** C9: [update_user] changes at most the keys 'name', 'email' and 'age'
    of the record whose id is [user_id], whatever the request body holds;
    that record's other keys, its 'id' among them, every other record, the
    length of the table and the rest of the state stay as they were. *)
Theorem update_user_frame (user_id : Z) (req : request) (w : world) :
  let w' := (update_user user_id req w).2 in
  w' = set_users_db (users_db w') w
  ∧ length (users_db w') = length (users_db w)
  ∧ (∃ i0 : nat, ∀ i : nat, i ≠ i0 → users_db w' !! i = users_db w !! i)
  ∧ (∀ (i : nat) u, users_db w !! i = Some u →
       ∃ u', users_db w' !! i = Some u'
         ∧ (∀ k : string, k ∉ ["name"; "email"; "age"] → u' !! k = u !! k)
         ∧ u' !! "id" = u !! "id"
         ∧ (¬ targets user_id u → u' = u)).
Proof.
  intros w'. subst w'.
  destruct (update_user_cases user_id req w)
    as [-> | (i & u & o & Hi & Hu & _ & ->)].
  - split_and!; [by destruct w | done | by exists 0%nat |].
    intros i u Hi. exists u. by split_and!.
  - simpl. split_and!; [done | by rewrite length_insert | |].
    + exists i. intros j Hj. by rewrite list_lookup_insert_ne.
    + intros j v Hj. destruct (decide (j = i)) as [->|Hne].
      * assert (v = u) as -> by congruence.
        exists (dict_update (allowed_fields o) u). split_and!.
        -- apply list_lookup_insert_eq. by eapply lookup_lt_Some.
        -- intros k Hk. by apply dict_update_lookup_other.
        -- apply dict_update_lookup_other, id_not_allowed.
        -- done.
      * exists v. rewrite list_lookup_insert_ne by done. by split_and!.
Qed.

(** The update at work: the body's 'name' replaces the record's, its 'id'
    and 'role' are ignored. *)
Example update_user_example :
  let body := dict [("id", JInt 99); ("name", JStr "Robert"); ("role", JStr "admin")] in
  let w' := (update_user 2 (with_json body (empty_request "PUT" "/api/users/2"))
               initial_world).2 in
  ∃ u, users_db w' !! 1%nat = Some u
    ∧ u !! "name" = Some (JStr "Robert") ∧ u !! "id" = Some (JInt 2)
    ∧ u !! "email" = Some (JStr "bob@example.com") ∧ u !! "role" = None.
Proof. eexists. split; [reflexivity|]. by vm_compute. Qed.

(** ** Fresh and distinct ids *)

Lemma id_column_wf db :
  well_formed db → id_column db = Ok (JInt <$> ids db).
Proof.
  unfold id_column, ids. intros Hwf.
  induction db as [|v db IH]; simpl; [done|].
  inversion_clear Hwf as [|? ? [n Hn] Hwf'].
  rewrite (id_of_subscript _ _ Hn), Hn. simpl.
  by rewrite (IH Hwf').
Qed.

Lemma num_of_ints (l : list Z) : mapM num_of (JInt <$> l) = Some l.
Proof. induction l as [|n l IH]; [done|]. rewrite fmap_cons. cbn [mapM]. by rewrite IH. Qed.

Lemma max_plus_one_ints n ns :
  max_plus_one (JInt <$> n :: ns) = Ok (JInt (foldr Z.max n ns + 1)).
Proof. unfold max_plus_one. by rewrite num_of_ints. Qed.

Lemma foldr_max_ge n ns : Forall (λ m, m ≤ foldr Z.max n ns) (n :: ns).
Proof.
  induction ns as [|k ns IH]; simpl.
  - repeat constructor. lia.
  - inversion_clear IH as [|? ? Hn Hns]. constructor; [lia|].
    constructor; [lia|]. eapply Forall_impl; [exact Hns|]. simpl. lia.
Qed.

Lemma foldr_max_in n ns : foldr Z.max n ns ∈ n :: ns.
Proof.
  induction ns as [|k ns IH]; simpl; [by left|].
  destruct (Z.max_spec k (foldr Z.max n ns)) as [[_ ->]|[_ ->]].
  - apply elem_of_cons in IH as [->|IH]; [by left|]. by do 2 right.
  - right. by left.
Qed.

(** The id [create_user] picks: 1 for the empty table, the greatest id
    plus one otherwise. *)
Lemma new_id_wf db :
  well_formed db →
  ∃ n, new_id db = Ok (JInt n)
    ∧ Forall (λ m, m < n) (ids db)
    ∧ (db = [] → n = 1)
    ∧ (db ≠ [] → ∃ m, m ∈ ids db ∧ n = m + 1).
Proof.
  intros Hwf. destruct db as [|v db].
  - exists 1. by split_and!; [done | constructor | done | ].
  - unfold new_id. rewrite (id_column_wf _ Hwf). unfold mbind, result_bind.
    destruct (ids (v :: db)) as [|n ns] eqn:Hids.
    { inversion_clear Hwf as [|? ? [k Hk] _].
      unfold ids in Hids. simpl in Hids. by rewrite Hk in Hids. }
    rewrite max_plus_one_ints. eexists. split; [done|]. split_and!.
    + eapply Forall_impl; [apply foldr_max_ge|]. simpl. lia.
    + done.
    + intros _. eexists. split; [apply foldr_max_in|done].
Qed.

Lemma ids_snoc db u n : id_of u = Some n → ids (db ++ [u]) = ids db ++ [n].
Proof. intros Hn. unfold ids. rewrite omap_app. simpl. by rewrite Hn. Qed.

Lemma ids_filter user_id db :
  well_formed db →
  ids (filter (λ u, ¬ has_id user_id u) db) = filter (λ n, n ≠ user_id) (ids db).
Proof.
  intros Hwf. induction db as [|v db IH]; [done|].
  inversion_clear Hwf as [|? ? [n Hn] Hwf'].
  rewrite filter_cons. unfold ids in *. simpl. rewrite Hn.
  rewrite filter_cons. destruct (decide (n = user_id)) as [->|Hne].
  - rewrite decide_False by (intros Hv; by apply Hv).
    rewrite decide_False by naive_solver. by apply IH.
  - rewrite decide_True by (unfold has_id; rewrite Hn; naive_solver).
    rewrite decide_True by done. simpl. rewrite Hn. f_equal. by apply IH.
Qed.

Lemma ids_insert db i u u' :
  db !! i = Some u → id_of u' = id_of u → ids (<[i := u']> db) = ids db.
Proof.
  revert i. induction db as [|v db IH]; intros [|i]; simpl; try done.
  - intros [= ->] Hid. unfold ids. simpl. by rewrite Hid.
  - intros Hi Hid. unfold ids in *. simpl. by rewrite (IH _ Hi Hid).
Qed.

Lemma well_formed_insert db i u u' :
  db !! i = Some u → id_of u' = id_of u → well_formed db →
  well_formed (<[i := u']> db).
Proof.
  intros Hi Hid Hwf. apply Forall_insert; [done|].
  rewrite Hid. by eapply (Forall_lookup_1 _ _ _ _ Hwf).
Qed.

(** What [create_user] does to the table: nothing, or it appends the new
    record and answers 201. *)
Lemma create_user_cases req w :
  ((create_user req w).2 = w
   ∧ ∀ r, (create_user req w).1 = Returned r → status r = 400)
  ∨ ∃ new_user, new_user_of (get_json req) (users_db w) = Ok new_user
      ∧ create_user req w
        = (Returned (jsonify_with (JObj new_user) 201),
           set_users_db (users_db w ++ [new_user]) w).
Proof.
  unfold create_user.
  destruct (missing_fields (get_json req)) as [[]|];
    [left; split; [done|by intros ? [= <-]] | | left; split; done].
  destruct (new_user_of _ _) as [new_user|] eqn:Hnew;
    [|left; split; done].
  right. by exists new_user.
Qed.

Lemma new_user_of_id data db new_user :
  new_user_of data db = Ok new_user →
  ∃ v, new_id db = Ok v ∧ new_user !! "id" = Some v.
Proof.
  unfold new_user_of. destruct (new_id db) as [v|]; simpl; [|done].
  destruct (getitem "name" data); simpl; [|done].
  destruct (getitem "email" data); simpl; [|done].
  destruct (get_default "age" (JInt 0) data); simpl; [|done].
  intros [= <-]. exists v. split; [done|]. simpl. apply lookup_insert_eq.
Qed.

Lemma create_user_fresh req w new_user :
  well_formed (users_db w) →
  new_user_of (get_json req) (users_db w) = Ok new_user →
  ∃ n, id_of new_user = Some n
    ∧ Forall (λ m, m < n) (ids (users_db w))
    ∧ (users_db w = [] → n = 1)
    ∧ (users_db w ≠ [] → ∃ m, m ∈ ids (users_db w) ∧ n = m + 1).
Proof.
  intros Hwf Hnew.
  destruct (new_user_of_id _ _ _ Hnew) as (v & Hv & Hid).
  destruct (new_id_wf _ Hwf) as (n & Hn & Hlt & Hempty & Hmax).
  assert (v = JInt n) as -> by congruence.
  exists n. split; [|done]. unfold id_of. by rewrite Hid.
Qed.

Lemma create_user_unique req w :
  unique_ids (users_db w) → unique_ids (users_db (create_user req w).2).
Proof.
  intros [Hwf Hnd].
  destruct (create_user_cases req w) as [[-> _] | (new_user & Hnew & ->)];
    [done|].
  destruct (create_user_fresh _ _ _ Hwf Hnew) as (n & Hn & Hlt & _).
  simpl. split.
  - apply Forall_app. split; [done|]. repeat constructor. by exists n.
  - rewrite (ids_snoc _ _ _ Hn). apply NoDup_app. split_and!; [done| |].
    + intros m Hm Hm'. apply list_elem_of_singleton in Hm' as ->.
      rewrite Forall_forall in Hlt. specialize (Hlt _ Hm). lia.
    + apply NoDup_singleton.
Qed.

Lemma update_user_unique user_id req w :
  unique_ids (users_db w) → unique_ids (users_db (update_user user_id req w).2).
Proof.
  intros [Hwf Hnd].
  destruct (update_user_cases user_id req w)
    as [-> | (i & u & o & Hi & _ & _ & ->)]; [done|].
  simpl. split.
  - eapply well_formed_insert; [done | apply id_of_dict_update | done].
  - by rewrite (ids_insert _ _ _ _ Hi (id_of_dict_update o u)).
Qed.

Lemma delete_user_unique user_id w :
  unique_ids (users_db w) → unique_ids (users_db (delete_user user_id w).2).
Proof.
  intros [Hwf Hnd]. unfold delete_user.
  destruct (next_user user_id (users_db w)) as [found|]; [|done].
  destruct (negb (found_truthy found)); [done|].
  rewrite (without_user_filter _ _ Hwf). simpl. split.
  - unfold well_formed in *. rewrite Forall_forall in Hwf |- *.
    intros u Hu. apply Hwf. by apply list_elem_of_filter in Hu as [_ Hu].
  - rewrite (ids_filter _ _ Hwf). by apply NoDup_filter.
Qed.

(** C8: when the ids of the table are pairwise distinct they are still so
    after [create_user], [update_user] and [delete_user]; and [create_user]
    gives the new record an id above every existing one: the greatest id
    plus one, or 1 for the empty table. *)
Theorem user_ids_stay_unique (w : world) :
  unique_ids (users_db w) →
  (∀ req, unique_ids (users_db (create_user req w).2))
  ∧ (∀ user_id req, unique_ids (users_db (update_user user_id req w).2))
  ∧ (∀ user_id, unique_ids (users_db (delete_user user_id w).2))
  ∧ (∀ req r w', create_user req w = (Returned r, w') → status r = 201 →
       ∃ new_user n,
         users_db w' = users_db w ++ [new_user]
         ∧ content r = Json (JObj new_user)
         ∧ id_of new_user = Some n
         ∧ Forall (λ m, m < n) (ids (users_db w))
         ∧ (users_db w = [] → n = 1)
         ∧ (users_db w ≠ [] → ∃ m, m ∈ ids (users_db w) ∧ n = m + 1))
  ∧ (∀ req o, get_json req = JObj o →
       is_Some (o !! "name") → is_Some (o !! "email") →
       ∃ r w', create_user req w = (Returned r, w') ∧ status r = 201).
Proof.
  intros Huniq. split_and!.
  - intros req. by apply create_user_unique.
  - intros user_id req. by apply update_user_unique.
  - intros user_id. by apply delete_user_unique.
  - intros req r w' Hrun Hstatus. destruct Huniq as [Hwf _].
    destruct (create_user_cases req w) as [[_ H400] | (new_user & Hnew & Heq)].
    + rewrite Hrun in H400. specialize (H400 r eq_refl). lia.
    + rewrite Hrun in Heq. injection Heq as -> ->.
      destruct (create_user_fresh _ _ _ Hwf Hnew) as (n & ? & ? & ? & ?).
      by exists new_user, n.
  - intros req o Hdata [name Hname] [email Hemail]. destruct Huniq as [Hwf _].
    destruct (new_id_wf _ Hwf) as (n & Hn & _).
    unfold create_user, missing_fields, new_user_of. rewrite Hdata, Hn. simpl.
    assert (o ≠ ∅) as Hne by (intros ->; by rewrite lookup_empty in Hname).
    rewrite (bool_decide_eq_false_2 _ Hne). simpl.
    rewrite !bool_decide_eq_true_2 by (by rewrite ?Hname, ?Hemail). simpl.
    unfold subscript. rewrite Hname, Hemail. simpl. eauto.
Qed.

Lemma initial_unique_ids : unique_ids initial_users_db.
Proof.
  split; [apply initial_well_formed|].
  change (ids initial_users_db) with [1; 2; 3].
  apply (bool_decide_unpack _). by vm_compute.
Qed.

Lemma user_ids_stay_unique_witness :
  unique_ids (users_db initial_world)
  ∧ unique_ids (users_db
      (create_user
         (with_json (dict [("name", JStr "Dana"); ("email", JStr "dana@example.com")])
            (empty_request "POST" "/api/users"))
         initial_world).2)
  ∧ unique_ids (users_db (delete_user 2 initial_world).2).
Proof.
  pose proof (user_ids_stay_unique initial_world initial_unique_ids)
    as (Hcreate & _ & Hdelete & _).
  split; [exact initial_unique_ids|]. split; [apply Hcreate | apply Hdelete].
Defined.

(** A created user gets id 4 in the initial table. *)
Example create_user_example :
  let req := with_json (dict [("name", JStr "Dana"); ("email", JStr "dana@example.com")])
               (empty_request "POST" "/api/users") in
  ids (users_db (create_user req initial_world).2) = [1; 2; 3; 4]
  ∧ ∃ r, (create_user req initial_world).1 = Returned r ∧ status r = 201.
Proof. split; [by vm_compute|]. eexists. split; [by vm_compute|done]. Qed.

(** ** What the handlers write *)

(** Unfolds a view down to the state it returns. *)
Ltac run_view :=
  unfold view, home, hello, hello_name, user_profile, handle_data, search,
    form_example, upload_file, login, profile, logout, get_users, get_user,
    create_user, update_user, delete_user, protected_endpoint,
    json_only_endpoint, require_auth, require_json, download_data,
    custom_response, template_example, health_check, api_docs, not_found,
    internal_error, ret, raise;
  simpl; repeat (case_match; simpl); try done.

(** No view touches the application's key or its configuration. *)
Lemma view_keeps_config rt req w :
  secret_key (view rt req w).2 = secret_key w
  ∧ config (view rt req w).2 = config w.
Proof. destruct rt; run_view. Qed.

(** Only the three writing views of the REST API change the table. *)
Lemma view_keeps_users_db rt req w :
  match rt with
  | RCreateUser | RUpdateUser _ | RDeleteUser _ => True
  | _ => users_db (view rt req w).2 = users_db w
  end.
Proof. destruct rt; try done; run_view. Qed.

Lemma serve_state rt req w :
  (serve rt req w).2 = (view rt req (before_request req w)).2.
Proof. unfold serve. by destruct (view _ _ _) as [[] ?]. Qed.

(** Only [login] and [logout] write session keys. *)
Lemma view_keeps_session rt req w :
  match rt with
  | RLogin | RLogout => True
  | _ => session (view rt req w).2 = session w
  end.
Proof. destruct rt; try done; run_view. Qed.

(** Only [login], [profile] and [logout] flash a message. *)
Lemma view_keeps_flashes rt req w :
  match rt with
  | RLogin | RProfile | RLogout => True
  | _ => flashes (view rt req w).2 = flashes w
  end.
Proof. destruct rt; try done; run_view. Qed.

(** C7, as stated, fails: [login] writes the session, which the handlers
    reach through the module-level name [session]. *)
Lemma login_mutates_session :
  ¬ (∀ rt req w, touches_only_users_db w (view rt req w).2).
Proof.
  intros H. destruct (H RLogin login_request initial_world) as (_ & _ & Hs & _).
  apply (f_equal (λ s : gmap string json, s !! "username")) in Hs.
  vm_compute in Hs. discriminate Hs.
Qed.

(** C7, amended: of the objects bound at module level, a route handler
    mutates or rebinds the table [users_db] (only [create_user],
    [update_user] and [delete_user] do) and, through the proxy [session],
    the session of the request (only [login] and [logout] write its keys,
    only [login], [profile] and [logout] flash a message into it); the key
    and the configuration of [app] are the same before and after every
    handler. *)
Theorem module_bindings_written (rt : route) (req : request) (w : world) :
  let w' := (view rt req w).2 in
  secret_key w' = secret_key w
  ∧ config w' = config w
  ∧ (users_db w' ≠ users_db w →
       rt = RCreateUser ∨ (∃ user_id, rt = RUpdateUser user_id)
       ∨ ∃ user_id, rt = RDeleteUser user_id)
  ∧ (session w' ≠ session w → rt = RLogin ∨ rt = RLogout)
  ∧ (flashes w' ≠ flashes w → rt = RLogin ∨ rt = RProfile ∨ rt = RLogout).
Proof.
  simpl.
  destruct (view_keeps_config rt req w) as [-> ->].
  pose proof (view_keeps_users_db rt req w) as Hdb.
  pose proof (view_keeps_session rt req w) as Hs.
  pose proof (view_keeps_flashes rt req w) as Hf.
  split_and!; [done | done | | |].
  - intros Hne. destruct rt; try (by destruct Hne); eauto.
  - intros Hne. destruct rt; try (by destruct Hne); eauto.
  - intros Hne. destruct rt; try (by destruct Hne); eauto.
Qed.

(** Each of the writers does write: [login] the session and a flash,
    [profile] a flash when nobody is logged in. *)
Example session_writers_write :
  session (login login_request initial_world).2 ≠ session initial_world
  ∧ flashes (login login_request initial_world).2 ≠ flashes initial_world
  ∧ flashes (profile initial_world).2 ≠ flashes initial_world.
Proof.
  split_and!; intros H.
  - apply (f_equal (λ s : gmap string json, s !! "username")) in H.
    vm_compute in H. discriminate H.
  - apply (f_equal length) in H. vm_compute in H. discriminate H.
  - apply (f_equal length) in H. vm_compute in H. discriminate H.
Qed.

(** The table does change under the writing handlers. *)
Example delete_user_rebinds_users_db :
  users_db (serve (RDeleteUser 1) (empty_request "DELETE" "/api/users/1")
              initial_world).2
  ≠ users_db initial_world.
Proof.
  intros H. apply (f_equal length) in H. vm_compute in H. discriminate H.
Qed.

(** A view leaves every session key but 'username' and 'login_time'. *)
Lemma view_session_frame rt req w (k : string) :
  k ≠ "username" → k ≠ "login_time" →
  session (view rt req w).2 !! k = session w !! k.
Proof.
  intros Hu Ht.
  destruct rt; run_view; by rewrite ?lookup_insert_ne, ?lookup_delete_ne.
Qed.

(** A successful login stores the time of login next to the name. *)
Lemma login_writes_login_time :
  session (serve RLogin login_request initial_world).2
  = <["login_time" := JStr "2024-01-01T00:00:00"]>
      (<["username" := JStr "alice"]> ∅).
Proof. reflexivity. Qed.

(** C2, as stated, fails: [login] writes the key 'login_time' too. *)
Lemma session_holds_more_than_username :
  ¬ (∀ rt req w, writes_only_username w (serve rt req w).2).
Proof.
  intros H. specialize (H RLogin login_request initial_world "login_time").
  rewrite login_writes_login_time in H. by specialize (H ltac:(done)).
Qed.

(** C2, amended: the session keys the handlers write are 'username' and
    'login_time' and no other; after [logout] neither of the two is left. *)
Theorem session_keys_written (rt : route) (req : request) (w : world) (k : string) :
  k ≠ "username" → k ≠ "login_time" →
  session (serve rt req w).2 !! k = session w !! k
  ∧ session (serve RLogout req w).2 !! "username" = None
  ∧ session (serve RLogout req w).2 !! "login_time" = None.
Proof.
  intros Hu Ht. rewrite !serve_state. split_and!.
  - by rewrite view_session_frame.
  - simpl. rewrite lookup_delete_ne by done. apply lookup_delete_eq.
  - simpl. apply lookup_delete_eq.
Qed.

Lemma session_keys_written_witness :
  let w := (serve RLogin login_request initial_world).2 in
  session (serve RLogin login_request w).2 !! "theme" = session w !! "theme"
  ∧ session (serve RLogout login_request w).2 !! "username" = None
  ∧ session (serve RLogout login_request w).2 !! "login_time" = None.
Proof.
  intros w.
  apply (session_keys_written RLogin login_request w "theme"); by vm_compute.
Defined.

(** The table invariant holds at the start and after every request. *)
Lemma serve_keeps_unique_ids rt req w :
  unique_ids (users_db w) → unique_ids (users_db (serve rt req w).2).
Proof.
  intros Huniq. rewrite serve_state.
  pose proof (view_keeps_users_db rt req (before_request req w)) as Hkeep.
  destruct rt; simpl in Hkeep |- *; rewrite ?Hkeep; try done.
  - by apply create_user_unique.
  - by apply update_user_unique.
  - by apply delete_user_unique.
Qed.

(** ** Logging in and out *)

(** X1: a POST to [login] with a non-empty username and password stores
    the name and the time in the session, flashes one success message and
    redirects to the profile; [profile] then shows that user's page and
    changes nothing. *)
Theorem login_then_profile (req : request) (w : world) (name pass : string) :
  method req = "POST" →
  form req !! "username" = Some name → name ≠ "" →
  form req !! "password" = Some pass → pass ≠ "" →
  let w' := (login req w).2 in
  login req w = (Returned (reply (Redirect "profile") 302), w')
  ∧ session w' = <["login_time" := JStr (now_iso req)]>
                   (<["username" := JStr name]> (session w))
  ∧ flashes w' = flashes w ++ [("success", "Login successful!")]
  ∧ profile w'
    = (Returned (reply (Page "User Profile" [JStr name; JStr (now_iso req)]) 200),
       w').
Proof.
  intros Hm Hname Hn Hpass Hp. unfold login. rewrite Hm, Hname, Hpass. simpl.
  destruct (String.eqb_spec name ""); [done|].
  destruct (String.eqb_spec pass ""); [done|]. simpl.
  split_and!; [done..|].
  unfold profile. simpl.
  rewrite lookup_insert_ne by done. rewrite lookup_insert_eq.
  by rewrite lookup_insert_eq.
Qed.

Lemma login_then_profile_witness :
  let w' := (login login_request initial_world).2 in
  profile w'
  = (Returned (reply (Page "User Profile"
                        [JStr "alice"; JStr "2024-01-01T00:00:00"]) 200), w').
Proof.
  intros w'.
  apply (login_then_profile login_request initial_world "alice" "secret");
    by vm_compute.
Defined.

(** X2: a POST to [login] with the username or the password missing or
    empty leaves the session as it was, flashes 'Invalid credentials!' and
    redirects back to the login form. *)
Theorem login_rejects_blank_fields (req : request) (w : world) :
  method req = "POST" →
  nonempty (form req !! "username") && nonempty (form req !! "password") = false →
  login req w
  = (Returned (reply (Redirect "login") 302),
     flash "Invalid credentials!" "error" w)
  ∧ session (login req w).2 = session w.
Proof.
  intros Hm Hblank. unfold login. by rewrite Hm, Hblank.
Qed.

Lemma login_rejects_blank_fields_witness :
  let req := with_form (<["username" := "alice"]> ∅) (empty_request "POST" "/login") in
  session (login req initial_world).2 = session initial_world.
Proof.
  intros req.
  by apply (login_rejects_blank_fields req initial_world).
Defined.

(** X3: after [logout] the profile page is closed: [profile] redirects to
    the login form and flashes 'Please log in first!'.  Logging out removes
    the two keys whatever the session held, and a second [logout] leaves the
    session as the first one did. *)
Theorem logout_closes_profile (w : world) :
  let w' := (logout w).2 in
  session w' = base.delete "login_time" (base.delete "username" (session w))
  ∧ profile w'
    = (Returned (reply (Redirect "login") 302),
       flash "Please log in first!" "error" w')
  ∧ session (logout w').2 = session w'.
Proof.
  simpl. split_and!.
  - done.
  - unfold profile. simpl.
    rewrite lookup_delete_ne by done. by rewrite lookup_delete_eq.
  - apply map_eq. intros k. rewrite !lookup_delete.
    by repeat case_decide.
Qed.

(** ** Decorators *)

(** X4: [require_auth] runs the wrapped view only for a session with a
    'username': without one it answers 401 and leaves the state alone,
    whatever the view would do.  So [protected_endpoint] never fails on the
    session lookup: it answers 401 or 200 with the name, and changes
    nothing. *)
Theorem require_auth_guards (f : handler) (req : request) (w : world) :
  (session w !! "username" = None →
     require_auth f w = (Returned (error_reply "Authentication required" 401), w))
  ∧ (is_Some (session w !! "username") → require_auth f w = f w)
  ∧ ∃ r, protected_endpoint req w = (Returned r, w)
      ∧ (status r = 401 ↔ session w !! "username" = None)
      ∧ (status r = 200 ↔ is_Some (session w !! "username")).
Proof.
  unfold protected_endpoint, require_auth, subscript.
  destruct (session w !! "username") as [name|].
  - split_and!; [done | done |].
    eexists. split; [done|]. simpl. split; split; try done; try by eexists.
  - split_and!; [done | by intros [] |].
    eexists. split; [done|]. simpl. split; split; try done; try by intros [].
Qed.

Lemma require_auth_guards_witness :
  require_auth logout initial_world
  = (Returned (error_reply "Authentication required" 401), initial_world).
Proof.
  destruct (require_auth_guards logout login_request initial_world) as [H _].
  by apply H.
Defined.

(** ** Validation in the REST API *)

(** X6: [create_user] answers 400 'Name and email are required', and
    changes nothing, when the body decodes to a value that is false (null,
    false, 0, an empty string, list or object) or to an object without a
    'name' or without an 'email'. *)
Theorem create_user_requires_name_and_email (req : request) (w : world) :
  truthy (get_json req) = false
  ∨ (∃ o, get_json req = JObj o ∧ (o !! "name" = None ∨ o !! "email" = None)) →
  create_user req w
  = (Returned (error_reply "Name and email are required" 400), w).
Proof.
  unfold create_user, missing_fields.
  intros [Hfalse | (o & Hdata & Hmissing)].
  - by rewrite Hfalse.
  - rewrite Hdata. destruct (truthy (JObj o)); [|done]. simpl.
    destruct Hmissing as [Hm|Hm]; rewrite Hm; simpl; [done|].
    by destruct (bool_decide (is_Some (o !! "name"))).
Qed.

Lemma create_user_requires_name_and_email_witness :
  create_user (json_request "POST" "/api/users" (dict [("name", JStr "Dana")]))
    initial_world
  = (Returned (error_reply "Name and email are required" 400), initial_world).
Proof.
  apply create_user_requires_name_and_email. right.
  eexists. split; [reflexivity|]. right. by vm_compute.
Defined.

Lemma existsb_eq_str l s : JStr s ∈ l → existsb (λ x, eq_str x s) l = true.
Proof.
  intros Hin. apply existsb_exists. exists (JStr s).
  split; [by apply list_elem_of_In|]. simpl. apply String.eqb_refl.
Qed.

(** X7: a body that is not a JSON object never creates a user: the state
    is unchanged and the handler answers 400 or raises.  A list that holds
    the strings 'name' and 'email' passes the membership test of the
    validation and then fails with a [TypeError] when it is indexed. *)
Theorem create_user_needs_an_object (req : request) (w : world) :
  (∀ o, get_json req ≠ JObj o) →
  (create_user req w).2 = w
  ∧ (∀ r, (create_user req w).1 = Returned r →
       r = error_reply "Name and email are required" 400)
  ∧ (∀ l, get_json req = JArr l → JStr "name" ∈ l → JStr "email" ∈ l →
       well_formed (users_db w) →
       (create_user req w).1 = Raised TypeError).
Proof.
  intros Hobj. split_and!.
  - destruct (create_user_cases req w) as [[-> _] | (u & Hnew & _)]; [done|].
    unfold new_user_of in Hnew.
    destruct (new_id (users_db w)); simpl in Hnew; [|done].
    destruct (get_json req); try done. by destruct (Hobj o).
  - intros r. unfold create_user.
    destruct (missing_fields (get_json req)) as [[]|]; simpl; [by intros [= <-] | | done].
    unfold new_user_of.
    destruct (new_id (users_db w)); simpl; [|done].
    destruct (get_json req); try done. by destruct (Hobj o).
  - intros l Hdata Hname Hemail Hwf. unfold create_user, missing_fields.
    rewrite Hdata. destruct l as [|x l]; [by apply elem_of_nil in Hname|].
    simpl truthy. cbn [negb contains mbind result_bind].
    rewrite !existsb_eq_str by done. simpl.
    unfold new_user_of. destruct (new_id_wf _ Hwf) as (n & -> & _). done.
Qed.

Lemma create_user_needs_an_object_witness :
  (create_user (json_request "POST" "/api/users" (JArr [JStr "name"; JStr "email"]))
     initial_world).1
  = Raised TypeError.
Proof.
  eapply (create_user_needs_an_object
            (json_request "POST" "/api/users" (JArr [JStr "name"; JStr "email"]))
            initial_world).
  - by intros o.
  - reflexivity.
  - by left.
  - right. by left.
  - exact initial_well_formed.
Defined.

(** ** Round trips through the table *)

(** X8: a user that [create_user] has just created is found by [get_user]
    under the id it was given, with the record the creation returned. *)
Theorem create_then_get (req : request) (w w' : world) (r : response) :
  well_formed (users_db w) →
  create_user req w = (Returned r, w') → status r = 201 →
  ∃ new_user n,
    content r = Json (JObj new_user) ∧ id_of new_user = Some n
    ∧ get_user n w' = (Returned (jsonify (JObj new_user)), w').
Proof.
  intros Hwf Hrun Hstatus.
  destruct (create_user_cases req w) as [[_ H400] | (new_user & Hnew & Heq)].
  { rewrite Hrun in H400. specialize (H400 r eq_refl). lia. }
  rewrite Hrun in Heq. injection Heq as -> ->.
  destruct (create_user_fresh _ _ _ Hwf Hnew) as (n & Hn & Hlt & _).
  exists new_user, n. split_and!; [done..|].
  unfold get_user. simpl users_db.
  rewrite (next_user_first n (users_db w) new_user []); [| done | | done].
  - unfold found_truthy. by rewrite (has_id_truthy n).
  - rewrite Forall_forall. intros v Hv Hid.
    assert (n ∈ ids (users_db w)) as Hin.
    { unfold ids. apply list_elem_of_omap. by exists v. }
    rewrite Forall_forall in Hlt. specialize (Hlt _ Hin). lia.
Qed.

Lemma create_then_get_witness :
  let req := json_request "POST" "/api/users"
               (dict [("name", JStr "Dana"); ("email", JStr "dana@example.com")]) in
  let w' := (create_user req initial_world).2 in
  ∃ new_user n, get_user n w' = (Returned (jsonify (JObj new_user)), w').
Proof.
  intros req w'.
  destruct (create_then_get req initial_world w'
              (jsonify_with (JObj (list_to_map
                 [("id", JInt 4); ("name", JStr "Dana");
                  ("email", JStr "dana@example.com"); ("age", JInt 0)])) 201)
              initial_well_formed eq_refl eq_refl)
    as (u & n & _ & _ & Hget).
  exists u, n. exact Hget.
Defined.

Lemma well_formed_filter user_id db :
  well_formed db → well_formed (filter (λ u, ¬ has_id user_id u) db).
Proof.
  unfold well_formed. rewrite !Forall_forall. intros Hwf u Hu.
  apply Hwf. by apply list_elem_of_filter in Hu as [_ Hu].
Qed.

Lemma filter_has_no_id user_id (db : list (gmap string json)) :
  Forall (λ v, ¬ has_id user_id v) (filter (λ u, ¬ has_id user_id u) db).
Proof.
  rewrite Forall_forall. intros u Hu.
  by apply list_elem_of_filter in Hu as [Hu _].
Qed.

(** On a well-formed table the scan finds a record with the id or ends
    without one; it does not raise. *)
Lemma next_user_wf user_id db :
  well_formed db →
  (∃ i u, next_user user_id db = Ok (Some (i, u))
      ∧ db !! i = Some u ∧ has_id user_id u)
  ∨ (next_user user_id db = Ok None ∧ Forall (λ v, ¬ has_id user_id v) db).
Proof.
  intros Hwf.
  destruct (decide (Exists (has_id user_id) db)) as [Hex|Hno].
  - left. destruct (first_with_id _ _ Hex) as (pre & u & post & -> & Hpre & Hu).
    exists (length pre), u. split_and!; [|by apply list_lookup_middle|done].
    by apply next_user_first; [eapply well_formed_app_l|..].
  - right. apply not_Exists_Forall in Hno; [|apply _].
    split; [by apply next_user_none|done].
Qed.

(** What [delete_user] leaves in the table. *)
Lemma delete_user_table user_id w :
  well_formed (users_db w) →
  users_db (delete_user user_id w).2
  = filter (λ u, ¬ has_id user_id u) (users_db w).
Proof.
  intros Hwf. unfold delete_user. rewrite (without_user_filter _ _ Hwf).
  destruct (next_user_wf user_id _ Hwf) as [(i & u & -> & _ & Hu) | [-> Hno]].
  - unfold found_truthy. by rewrite (has_id_truthy _ _ Hu).
  - simpl. symmetry. clear Hwf. induction Hno as [|v db Hv _ IH]; [done|].
    rewrite filter_cons, decide_True by done. by f_equal.
Qed.

(** X9: after [delete_user] the id is gone: [get_user] answers 404 for it,
    and deleting it once more answers 404 and changes nothing. *)
Theorem delete_then_get (user_id : Z) (w : world) :
  well_formed (users_db w) →
  let w' := (delete_user user_id w).2 in
  get_user user_id w' = (Returned (error_reply "User not found" 404), w')
  ∧ delete_user user_id w' = (Returned (error_reply "User not found" 404), w').
Proof.
  intros Hwf w'.
  assert (well_formed (users_db w')) as Hwf'.
  { subst w'. rewrite delete_user_table by done. by apply well_formed_filter. }
  assert (Forall (λ v, ¬ has_id user_id v) (users_db w')) as Hno.
  { subst w'. rewrite delete_user_table by done. apply filter_has_no_id. }
  unfold get_user, delete_user.
  by rewrite (next_user_none _ _ Hwf' Hno).
Qed.

Lemma delete_then_get_witness :
  let w' := (delete_user 2 initial_world).2 in
  get_user 2 w' = (Returned (error_reply "User not found" 404), w').
Proof.
  intros w'. by apply (delete_then_get 2 initial_world initial_well_formed).
Defined.

Lemma filter_one_id user_id db :
  unique_ids db → Exists (has_id user_id) db →
  S (length (filter (λ u, ¬ has_id user_id u) db)) = length db.
Proof.
  intros [Hwf Hnd] Hex.
  induction db as [|v db IH]; [by apply Exists_nil in Hex|].
  inversion_clear Hwf as [|? ? [n Hn] Hwf'].
  unfold ids in Hnd. simpl in Hnd. rewrite Hn in Hnd.
  apply NoDup_cons in Hnd as [Hfresh Hnd'].
  rewrite filter_cons. destruct (decide (n = user_id)) as [->|Hne].
  - rewrite decide_False by (intros Hv; by apply Hv). simpl. f_equal.
    clear IH Hex Hnd' Hn. induction Hwf' as [|u db [m Hm] _ IH]; [done|].
    simpl in Hfresh. rewrite Hm in Hfresh.
    apply not_elem_of_cons in Hfresh as [Hne Hfresh].
    rewrite filter_cons, decide_True; [simpl; f_equal; by apply IH|].
    unfold has_id. rewrite Hm. naive_solver.
  - rewrite decide_True by (unfold has_id; rewrite Hn; naive_solver).
    simpl. f_equal. apply IH; [done..|].
    apply Exists_cons in Hex as [Hv|Hex]; [|done].
    unfold has_id in Hv. rewrite Hn in Hv. naive_solver.
Qed.

(** Deleting one id does not disturb the scan for another. *)
Lemma next_user_after_filter user_id other db :
  well_formed db → other ≠ user_id →
  found_user (next_user other (filter (λ u, ¬ has_id user_id u) db))
  = found_user (next_user other db).
Proof.
  intros Hwf Hother. induction db as [|v db IH]; [done|].
  inversion_clear Hwf as [|? ? [n Hn] Hwf'].
  rewrite filter_cons. simpl next_user at 2.
  rewrite (id_of_subscript _ _ Hn). simpl. rewrite eq_int_JInt.
  destruct (decide (n = user_id)) as [->|Hne].
  - rewrite decide_False by (intros Hv; by apply Hv).
    rewrite bool_decide_eq_false_2 by done.
    rewrite (IH Hwf'). by destruct (next_user other db) as [[[]|]|].
  - rewrite decide_True by (unfold has_id; rewrite Hn; naive_solver).
    simpl. rewrite (id_of_subscript _ _ Hn). simpl. rewrite eq_int_JInt.
    case_bool_decide; [done|].
    specialize (IH Hwf').
    destruct (next_user other (filter _ db)) as [[[]|]|];
      destruct (next_user other db) as [[[]|]|]; simpl in *; congruence.
Qed.

(** X10: on a table with distinct ids, deleting an id that is there
    shortens the table by exactly one record, and [get_user] answers for
    every other id what it answered before. *)
Theorem delete_removes_one (user_id : Z) (w : world) :
  unique_ids (users_db w) →
  let w' := (delete_user user_id w).2 in
  (Exists (has_id user_id) (users_db w) →
     S (length (users_db w')) = length (users_db w))
  ∧ (∀ other, other ≠ user_id → (get_user other w').1 = (get_user other w).1).
Proof.
  intros Huniq w'. pose proof Huniq as [Hwf _]. split.
  - intros Hex. subst w'. rewrite delete_user_table by done.
    by apply filter_one_id.
  - intros other Hother. subst w'. unfold get_user.
    rewrite delete_user_table by done.
    pose proof (next_user_after_filter user_id other _ Hwf Hother) as Hsame.
    destruct (next_user other (filter _ _)) as [[[i u]|]|];
      destruct (next_user other (users_db w)) as [[[j v]|]|];
      simpl in Hsame; try done; injection Hsame as <-; try done.
    unfold found_truthy. by destruct (truthy (JObj u)).
Qed.

Lemma delete_removes_one_witness :
  S (length (users_db (delete_user 2 initial_world).2))
  = length (users_db initial_world)
  ∧ (get_user 3 (delete_user 2 initial_world).2).1 = (get_user 3 initial_world).1.
Proof.
  destruct (delete_removes_one 2 initial_world initial_unique_ids) as [Hlen Hget].
  split; [|by apply Hget].
  apply Hlen. apply Exists_cons_tl, Exists_cons_hd. by vm_compute.
Defined.

(** Replacing the record a scan found by one with the same 'id' entry
    makes the scan find the replacement at the same place. *)
Lemma next_user_insert user_id db i u u' :
  next_user user_id db = Ok (Some (i, u)) →
  u' !! "id" = u !! "id" →
  next_user user_id (<[i := u']> db) = Ok (Some (i, u')).
Proof.
  intros Hnext Hid. revert i Hnext.
  induction db as [|v db IH]; intros i; simpl; [done|].
  unfold subscript at 1. destruct (v !! "id") as [x|] eqn:Hx; simpl; [|done].
  destruct (eq_int x user_id) eqn:Heq.
  - intros [= <- <-]. simpl. unfold subscript. rewrite Hid, Hx. simpl.
    by rewrite Heq.
  - destruct (next_user user_id db) as [[[j u0]|]|] eqn:Hrest; simpl; try done.
    intros [= <- <-]. simpl. unfold subscript at 1. rewrite Hx. simpl.
    rewrite Heq. by rewrite (IH j eq_refl).
Qed.

(** What a 200 answer of [update_user] means. *)
Lemma update_user_ok user_id req w r w' :
  update_user user_id req w = (Returned r, w') → status r = 200 →
  ∃ i u o, next_user user_id (users_db w) = Ok (Some (i, u))
    ∧ get_json req = JObj o
    ∧ r = jsonify (JObj (dict_update (allowed_fields o) u))
    ∧ w' = set_users_db (<[i := dict_update (allowed_fields o) u]> (users_db w)) w.
Proof.
  unfold update_user.
  destruct (next_user user_id (users_db w)) as [[[i u]|]|] eqn:Hnext;
    [| by intros [= <- <-] | done].
  destruct (negb (found_truthy _)); [by intros [= <- <-]|].
  destruct (negb (truthy _)); [by intros [= <- <-]|].
  destruct (get_json req) as [| | | | |o] eqn:Hdata; simpl; try done.
  intros [= <- <-] _. by exists i, u, o.
Qed.

(** X11: what [update_user] answers with status 200 is what [get_user]
    answers for the same id afterwards. *)
Theorem update_then_get (user_id : Z) (req : request) (w w' : world)
    (r : response) :
  update_user user_id req w = (Returned r, w') → status r = 200 →
  get_user user_id w' = (Returned r, w').
Proof.
  intros Hrun Hstatus.
  destruct (update_user_ok _ _ _ _ _ Hrun Hstatus)
    as (i & u & o & Hnext & _ & -> & ->).
  unfold get_user. simpl users_db.
  rewrite (next_user_insert _ _ _ _ _ Hnext
             (dict_update_lookup_other o u "id" id_not_allowed)).
  destruct (next_user_Some _ _ _ _ Hnext) as [_ (x & Hx & _)].
  unfold found_truthy. simpl.
  rewrite bool_decide_eq_false_2; [done|].
  intros Hempty.
  pose proof (dict_update_lookup_other o u "id" id_not_allowed) as Hid.
  rewrite Hempty, lookup_empty, Hx in Hid. done.
Qed.

Lemma update_then_get_witness :
  let req := json_request "PUT" "/api/users/2" (dict [("age", JInt 33)]) in
  let w' := (update_user 2 req initial_world).2 in
  ∃ r, (update_user 2 req initial_world).1 = Returned r
    ∧ get_user 2 w' = (Returned r, w').
Proof.
  intros req w'. eexists. split; [reflexivity|].
  by apply (update_then_get 2 req initial_world).
Defined.

(** X12: [update_user] leaves the table alone when it does not answer
    200: an id that is not in the table gives 404; for an id that is
    there, a body that decodes to a value that is false (null, false, 0, an
    empty string, list or object) gives 400 'No data provided', and a body
    that decodes to a true value other than an object raises
    [AttributeError]. *)
Theorem update_user_rejects (user_id : Z) (req : request) (w : world) :
  well_formed (users_db w) →
  (Forall (λ v, ¬ has_id user_id v) (users_db w) →
     update_user user_id req w
     = (Returned (error_reply "User not found" 404), w))
  ∧ (Exists (has_id user_id) (users_db w) →
     (truthy (get_json req) = false →
        update_user user_id req w
        = (Returned (error_reply "No data provided" 400), w))
     ∧ (truthy (get_json req) = true → (∀ o, get_json req ≠ JObj o) →
        update_user user_id req w = (Raised AttributeError, w))).
Proof.
  intros Hwf. unfold update_user. split.
  - intros Hno. by rewrite (next_user_none _ _ Hwf Hno).
  - intros Hex.
    destruct (next_user_wf user_id _ Hwf) as [(i & u & -> & _ & Hu) | [_ Hno]].
    + unfold found_truthy. rewrite (has_id_truthy _ _ Hu). simpl. split.
      * by intros ->.
      * intros -> Hobj. simpl.
        destruct (get_json req); try done. by destruct (Hobj o).
    + apply Exists_exists in Hex as (v & Hv & Hid).
      rewrite Forall_forall in Hno. by destruct (Hno v Hv).
Qed.

Lemma update_user_rejects_witness :
  update_user 9 (json_request "PUT" "/api/users/9" (dict [("age", JInt 1)]))
    initial_world
  = (Returned (error_reply "User not found" 404), initial_world)
  ∧ update_user 2 (json_request "PUT" "/api/users/2" (JArr [JInt 1])) initial_world
    = (Raised AttributeError, initial_world).
Proof.
  split.
  - destruct (update_user_rejects 9
                (json_request "PUT" "/api/users/9" (dict [("age", JInt 1)]))
                initial_world initial_well_formed) as [H _].
    apply H. repeat constructor; by vm_compute.
  - destruct (update_user_rejects 2
                (json_request "PUT" "/api/users/2" (JArr [JInt 1]))
                initial_world initial_well_formed) as [_ H].
    destruct H as [_ H]; [|by apply H].
    apply Exists_cons_tl, Exists_cons_hd. by vm_compute.
Defined.

(** ** The request pipeline *)

(** X13: every request is logged once: [serve] prints the one line of
    [before_request], and no view prints anything. *)
Theorem one_log_line_per_request (rt : route) (req : request) (w : world) :
  stdout (serve rt req w).2
  = stdout w ++ ["Request: " +:+ method req +:+ " " +:+ path req +:+ " from "
                   +:+ remote_addr req].
Proof.
  rewrite serve_state.
  assert (∀ w0, stdout (view rt req w0).2 = stdout w0) as Hview
    by (intros w0; destruct rt; run_view).
  by rewrite Hview.
Qed.

(** X14: every response [serve] returns carries 'X-Response-Time', and a
    response to a path under '/api/' also carries the three CORS headers;
    the hook changes neither the status nor the body the view returned. *)
Theorem responses_carry_headers (rt : route) (req : request) (w w' : world)
    (r : response) :
  serve rt req w = (Returned r, w') →
  ("X-Response-Time", elapsed req) ∈ headers r
  ∧ (String.prefix "/api/" (path req) = true →
       ("Access-Control-Allow-Origin", "*") ∈ headers r
       ∧ ("Access-Control-Allow-Methods", "GET, POST, PUT, DELETE, OPTIONS")
           ∈ headers r
       ∧ ("Access-Control-Allow-Headers", "Content-Type, Authorization")
           ∈ headers r)
  ∧ ∃ r0, (view rt req (before_request req w)).1 = Returned r0
      ∧ status r = status r0 ∧ content r = content r0.
Proof.
  unfold serve.
  destruct (view rt req (before_request req w)) as [[r0|e] w0]; [|done].
  intros [= <- <-]. unfold after_request.
  destruct (String.prefix "/api/" (path req)); simpl.
  - split_and!; [set_solver | intros _; split_and!; set_solver | by exists r0].
  - split_and!; [set_solver | done | by exists r0].
Qed.

Lemma responses_carry_headers_witness :
  let req := empty_request "GET" "/api/users" in
  ("Access-Control-Allow-Origin", "*")
    ∈ headers (after_request req (jsonify (dict
         [("users", JArr (JObj <$> initial_users_db)); ("total", JInt 3)]))).
Proof.
  intros req.
  destruct (responses_carry_headers RGetUsers req initial_world
              (before_request req initial_world) _ eq_refl) as (_ & Hcors & _).
  by destruct (Hcors eq_refl) as [H _].
Defined.

(** X15: the views write to disk and flash messages only where the source
    says so: [download_data] writes the file 'users_data.json' and no
    other, every other view leaves the disk alone; only [login], [profile]
    and [logout] flash, and they add one message at most. *)
Theorem disk_and_flashes_frame (rt : route) (req : request) (w : world) :
  let w' := (serve rt req w).2 in
  (∀ f : string, f ≠ "users_data.json" → disk w' !! f = disk w !! f)
  ∧ (rt ≠ RDownloadData → disk w' = disk w)
  ∧ (flashes w' = flashes w ∨ ∃ m, flashes w' = flashes w ++ [m])
  ∧ (rt ≠ RLogin → rt ≠ RProfile → rt ≠ RLogout → flashes w' = flashes w).
Proof.
  simpl. rewrite serve_state. split_and!.
  - intros f Hf. destruct rt; run_view. by rewrite lookup_insert_ne.
  - intros Hrt. destruct rt; try done; run_view.
  - destruct rt; run_view; try (by left); right; by eexists.
  - intros Hl Hp Ho. destruct rt; try done; run_view.
Qed.

(** [download_data] writes a snapshot of the table: the file holds
    the users in table order and their number, the table is not changed,
    and the response sends the file just written. *)
Lemma download_data_snapshot (req : request) (w : world) :
  let w' := (download_data req w).2 in
  (download_data req w).1
    = Returned (reply (SendFile "users_data.json" "users_data.json") 200)
  ∧ users_db w' = users_db w
  ∧ ∃ file, disk w' !! "users_data.json" = Some (JObj file)
      ∧ file !! "users" = Some (JArr (JObj <$> users_db w))
      ∧ file !! "total_users" = Some (JInt (Z.of_nat (length (users_db w))))
      ∧ file !! "generated_at" = Some (JStr (now_iso req)).
Proof.
  simpl. split_and!; [done..|].
  eexists. split; [apply lookup_insert_eq|]. by split_and!.
Qed.

(** X16: whatever requests the application has served since it started,
    the ids of the table are integers and pairwise distinct; so [get_user]
    and [delete_user] never raise: they answer 200 or 404. *)
Theorem table_invariant_always (reqs : list (route * request)) (user_id : Z) :
  let w := serve_all reqs initial_world in
  unique_ids (users_db w)
  ∧ (∃ r, (get_user user_id w).1 = Returned r
       ∧ (status r = 200 ∨ status r = 404))
  ∧ (∃ r, (delete_user user_id w).1 = Returned r
       ∧ (status r = 200 ∨ status r = 404)).
Proof.
  simpl.
  assert (∀ w, unique_ids (users_db w) →
               unique_ids (users_db (serve_all reqs w))) as Hall.
  { induction reqs as [|[rt req] rest IH]; intros w Hw; [done|].
    simpl. by apply IH, serve_keeps_unique_ids. }
  pose proof (Hall initial_world initial_unique_ids) as Huniq.
  split; [done|]. destruct Huniq as [Hwf _].
  set (w := serve_all reqs initial_world) in *.
  unfold get_user, delete_user. rewrite (without_user_filter _ _ Hwf).
  destruct (next_user_wf user_id _ Hwf) as [(i & u & -> & _ & Hu) | [-> _]].
  - unfold found_truthy. rewrite (has_id_truthy _ _ Hu). simpl.
    split; eexists; (split; [done|]); by left.
  - simpl. split; eexists; (split; [done|]); by right.
Qed.

(** ** Views that only read the request *)

(** X17: [search] answers with [per_page] results, numbered from 1 and
    quoting the query; a [per_page] of zero or less gives none, a missing
    or unreadable one gives ten, and the total is 100 whatever is asked. *)
Theorem search_results (req : request) (w : world) :
  let query := default "" (args req !! "q") in
  let per_page := default 10 (args_int req !! "per_page") in
  ∃ body results,
    search req w = (Returned (jsonify (JObj body)), w)
    ∧ body !! "results" = Some (JArr results)
    ∧ body !! "total" = Some (JInt 100)
    ∧ length results = Z.to_nat per_page
    ∧ ∀ i : nat, (i < Z.to_nat per_page)%nat →
        results !! i
        = Some (JStr ("Result " +:+ pretty (Z.of_nat i + 1) +:+ " for '"
                        +:+ query +:+ "'")).
Proof.
  simpl. unfold search, ret, jsonify, dict. eexists _, _.
  split; [reflexivity|]. split_and!; [done | done | |].
  - by rewrite length_fmap, length_seqZ.
  - intros i Hi. rewrite list_lookup_fmap. rewrite lookup_seqZ_lt; [|lia].
    simpl. by replace (1 + Z.of_nat i) with (Z.of_nat i + 1) by lia.
Qed.

(** X18: a POST to [upload_file] answers 400 'No file selected' exactly
    when the form has no 'file' part or the part has an empty filename;
    otherwise it answers 200.  The state is never changed. *)
Theorem upload_file_needs_a_name (req : request) (w : world) :
  method req = "POST" →
  ∃ r, upload_file req w = (Returned r, w)
    ∧ (r = reply (Text "No file selected") 400
       ↔ (files req !! "file" = None
          ∨ ∃ f, files req !! "file" = Some f ∧ filename f = ""))
    ∧ (status r = 400 ∨ status r = 200).
Proof.
  intros Hm. unfold upload_file. rewrite Hm. simpl.
  destruct (files req !! "file") as [f|].
  - destruct (String.eqb_spec (filename f) "") as [Hname|Hname].
    + eexists. split; [done|]. split; [|by left].
      split; [|done]. intros _. right. by exists f.
    + eexists. split; [done|]. split; [|by right].
      split; [done|]. intros [|(f' & [= <-] & ?)]; done.
  - eexists. split; [done|]. split; [|by left]. split; [by left|done].
Qed.

Lemma upload_file_needs_a_name_witness :
  ∃ r, upload_file (empty_request "POST" "/upload") initial_world
       = (Returned r, initial_world)
    ∧ status r = 400.
Proof.
  destruct (upload_file_needs_a_name (empty_request "POST" "/upload")
              initial_world eq_refl) as (r & Hrun & Hiff & _).
  exists r. split; [exact Hrun|].
  replace r with (reply (Text "No file selected") 400); [reflexivity|].
  symmetry. apply Hiff. by left.
Defined.
End FlaskProps.

(* ===================================================================== *)
(** * Properties of the HTTP client examples                              *)
(* ===================================================================== *)

Module RequestsProps.
Import Py Requests.

(** ** Error handling *)

(** Every clause of [handle_error] returns a dict with the three entries
    of an error value. *)
Lemma handle_error_returns e :
  is_RequestException (cls e) || is_JSONDecodeError (cls e) = true →
  ∃ d, handle_error e = Returns (JObj d)
    ∧ d !! "success" = Some (JBool false)
    ∧ is_Some (d !! "error_type")
    ∧ is_Some (d !! "message").
Proof.
  intros Hcls. unfold handle_error, error_dict.
  destruct (cls e); try discriminate Hcls; simpl;
    (eexists; split; [reflexivity|]; split_and!; [done | by eexists..]).
Qed.

Lemma connection_refused_is_returned :
  make_request_with_error_handling unreachable "https://example.invalid"
  = (Returns (error_dict "Connection Error" [] "Failed to connect to the server"),
     [EvRequest "GET" "https://example.invalid" (Some 5)]).
Proof. reflexivity. Qed.

(** C1, as stated, fails: a refused connection is answered by an error
    value handed to the caller, and nothing is printed. *)
Lemma failure_is_not_only_printed :
  ¬ handled_by_printing_only is_error_value
      (make_request_with_error_handling unreachable "https://example.invalid").
Proof.
  rewrite connection_refused_is_returned. intros [[line Hline] _].
  simpl in Hline. apply list_elem_of_singleton in Hline. discriminate Hline.
Qed.

(** C1, amended: [make_request_with_error_handling] answers a failed
    request by returning a dict with 'success' False, an 'error_type' and a
    'message', and prints nothing; [_make_request] prints one 'API Error'
    line and raises the exception again; [get_user] answers a missing user
    with the error 'User not found' and status 404, and prints nothing. *)
Theorem errors_are_returned_or_reraised :
  (∀ net url e,
      try_request net url = inr e →
      is_RequestException (cls e) || is_JSONDecodeError (cls e) = true →
      ∃ d, make_request_with_error_handling net url
           = (Returns (JObj d), [EvRequest "GET" url (Some 5)])
        ∧ d !! "success" = Some (JBool false)
        ∧ is_Some (d !! "error_type")
        ∧ is_Some (d !! "message"))
  ∧ (∀ net self method endpoint e,
      send net method (request_url self endpoint) = inr e →
      is_RequestException (cls e) = true →
      _make_request net self method endpoint
      = (Propagates e,
         [EvRequest method (request_url self endpoint) (Some (timeout self));
          EvPrint ("API Error: " +:+ str e)]))
  ∧ (∀ user_id w,
      Flask.well_formed (Flask.users_db w) →
      Forall (λ v, ¬ Flask.has_id user_id v) (Flask.users_db w) →
      Flask.get_user user_id w
      = (Flask.Returned (Flask.error_reply "User not found" 404), w)).
Proof.
  split_and!.
  - intros net url e Htry Hcls. unfold make_request_with_error_handling.
    rewrite Htry. destruct (handle_error_returns e Hcls) as (d & -> & ?).
    by exists d.
  - intros net self method endpoint e Hsend Hcls. unfold _make_request.
    by rewrite Hsend, Hcls.
  - intros user_id w Hwf Hno. unfold Flask.get_user.
    by rewrite (FlaskProps.next_user_none _ _ Hwf Hno).
Qed.

Lemma errors_are_returned_or_reraised_witness :
  (∃ d, make_request_with_error_handling unreachable "https://example.invalid"
        = (Returns (JObj d), [EvRequest "GET" "https://example.invalid" (Some 5)])
     ∧ d !! "success" = Some (JBool false)
     ∧ is_Some (d !! "error_type")
     ∧ is_Some (d !! "message"))
  ∧ _make_request unreachable (APIClient_init "https://example.invalid/" None 30)
      "GET" "/posts"
    = (Propagates refused,
       [EvRequest "GET" "https://example.invalid/posts" (Some 30);
        EvPrint "API Error: Connection refused"])
  ∧ Flask.get_user 7 Flask.initial_world
    = (Flask.Returned (Flask.error_reply "User not found" 404),
       Flask.initial_world).
Proof.
  destruct errors_are_returned_or_reraised as (Hreq & Hapi & Huser).
  split_and!.
  - apply (Hreq unreachable "https://example.invalid" refused); reflexivity.
  - apply (Hapi unreachable (APIClient_init "https://example.invalid/" None 30)
             "GET" "/posts" refused); reflexivity.
  - apply Huser; [exact FlaskProps.initial_well_formed|].
    repeat constructor; by vm_compute.
Defined.

(** ** Retry configuration *)



(** On the later library the function ends in the call of [Retry], after
    the session was made and before anything is mounted. *)
Lemma create_session_with_retries_on_urllib3_2 :
  create_session_with_retries From_2_0
  = (Raise TypeError, [CallSession; CallRetry]).
Proof. reflexivity. Qed.

(** ** URL joining *)

Lemma append_cons a s t : String a s +:+ t = String a (s +:+ t).
Proof. reflexivity. Qed.

Lemma append_empty t : "" +:+ t = t.
Proof. reflexivity. Qed.

Lemma lstrip_copies c n s : lstrip c (copies n c +:+ s) = lstrip c s.
Proof.
  induction n as [|n IH]; simpl; [done|]. by rewrite Ascii.eqb_refl.
Qed.

Lemma rstrip_copies c n : rstrip c (copies n c) = "".
Proof.
  induction n as [|n IH]; simpl; [done|]. by rewrite IH, Ascii.eqb_refl.
Qed.

Lemma rstrip_app_copies c n s : rstrip c (s +:+ copies n c) = rstrip c s.
Proof.
  induction s as [|a s IH]; simpl.
  - apply rstrip_copies.
  - by rewrite IH.
Qed.

(** [lstrip] removes a run of the character from the front and stops at
    the first other character. *)
Lemma lstrip_spec c s :
  ∃ n, s = copies n c +:+ lstrip c s
    ∧ ∀ a t, lstrip c s = String a t → a ≠ c.
Proof.
  induction s as [|a s (n & Hn & Hhead)]; simpl.
  - by exists 0%nat.
  - destruct (Ascii.eqb_spec a c) as [->|Hne].
    + exists (S n). split; [|done]. simpl. rewrite append_cons. by f_equal.
    + exists 0%nat. split; [done|]. by intros ? ? [= <- _].
Qed.

(** [rstrip] removes a run of the character from the end and leaves a
    string that does not end with it. *)
Lemma rstrip_spec c s :
  ∃ n, s = rstrip c s +:+ copies n c
    ∧ ∀ t, rstrip c s ≠ t +:+ String c "".
Proof.
  induction s as [|a s (n & Hn & Hlast)]; simpl.
  - exists 0%nat. split; [done|]. by intros [|].
  - destruct (rstrip c s) as [|b t] eqn:Ht.
    + rewrite append_empty in Hn.
      destruct (Ascii.eqb_spec a c) as [->|Hne].
      * exists (S n). split; [rewrite append_empty; simpl; by f_equal|].
        by intros [|].
      * exists n. split; [rewrite !append_cons, append_empty; by f_equal|].
        intros [|x [|y u]]; rewrite ?append_cons, ?append_empty; congruence.
    + exists n. split; [rewrite append_cons; by f_equal|].
      intros [|x u]; rewrite ?append_cons, ?append_empty; [done|].
      intros [= <- Hu]. by apply (Hlast u).
Qed.

(** C10: the URL [_make_request] asks for is the base URL without its
    trailing slashes, one slash, and the endpoint without its leading
    slashes: it is [b], '/' and [e], where the base URL is [b] followed by
    slashes only and [b] does not end in a slash, and the endpoint is
    slashes only followed by [e] and [e] does not start with a slash.  So
    base URLs that differ in trailing slashes only, with endpoints that
    differ in leading slashes only, lead to the same URL. *)
Theorem url_join_ignores_slashes (net : network) (base endpoint method : string)
    (api_key : option string) (timeout : Z) :
  (∃ (b e : string) (n m : nat),
      base = b +:+ copies n "/"
      ∧ endpoint = copies m "/" +:+ e
      ∧ (∀ t, b ≠ t +:+ "/")
      ∧ (∀ t, e ≠ "/" +:+ t)
      ∧ requested_url (_make_request net (APIClient_init base api_key timeout)
                         method endpoint).2
        = Some (b +:+ "/" +:+ e))
  ∧ ∀ n1 n2 m1 m2 : nat,
      requested_url
        (_make_request net (APIClient_init (base +:+ copies n1 "/") api_key timeout)
           method (copies m1 "/" +:+ endpoint)).2
      = requested_url
          (_make_request net (APIClient_init (base +:+ copies n2 "/") api_key timeout)
             method (copies m2 "/" +:+ endpoint)).2.
Proof.
  assert (∀ b e, requested_url
            (_make_request net (APIClient_init b api_key timeout) method e).2
          = Some (rstrip "/" b +:+ "/" +:+ lstrip "/" e)) as Hurl.
  { intros b e. unfold _make_request.
    destruct (send _ _ _) as [v|err]; [done|].
    by destruct (is_RequestException (cls err)). }
  split.
  - destruct (rstrip_spec "/" base) as (n & Hbase & Hend).
    destruct (lstrip_spec "/" endpoint) as (m & Hendpoint & Hfront).
    exists (rstrip "/" base), (lstrip "/" endpoint), n, m.
    split_and!; [done | done | done | | apply Hurl].
    intros t Ht. by apply (Hfront "/"%char t).
  - intros n1 n2 m1 m2. by rewrite !Hurl, !rstrip_app_copies, !lstrip_copies.
Qed.

Example url_join_example :
  requested_url (get unreachable (APIClient_init "https://api.test//" None 30)
                   "///posts").2
  = Some "https://api.test/posts".
Proof. reflexivity. Qed.

(** ** Rate limiting *)

(** A call whose exchange raises leaves the client as it was: the
    assignment to [last_request_time] is not reached. *)
Lemma failed_call_keeps_client self c e :
  exchange_of c = Fails e → (make_request self c).2 = self.
Proof. unfold make_request. by intros ->. Qed.

(** A call whose exchange gives a response records the reading of the
    clock after it. *)
Lemma answered_call_records_time self c r :
  exchange_of c = Answers r →
  last_request_time (make_request self c).2 = return_time c.
Proof. unfold make_request. by intros ->. Qed.

(** C5: the code does not keep the interval after a request that raised.
    On a client for one request per second, a first request is refused
    while the clock reads 1000 and a second call is made at the same
    reading: it measures 1000 seconds since the last request, does not
    sleep, and sends its request at once.  Had the first request given a
    response, the same second call would have slept for the full second. *)
Theorem failed_request_is_not_recorded :
  ∃ self, RateLimitedClient_init 1 = Ok self
    ∧ min_interval self = 1%float
    ∧ run self [call_at 1000 (Fails refused) 1000;
                call_at 1000 (Answers empty_answer) 1000]
      = [ {| measured := 1000; slept := None; answered := false |};
          {| measured := 1000; slept := None; answered := true |} ]
    ∧ run self [call_at 1000 (Answers empty_answer) 1000;
                call_at 1000 (Answers empty_answer) 1000]
      = [ {| measured := 1000; slept := None; answered := true |};
          {| measured := 0; slept := Some 1%float; answered := true |} ].
Proof. eexists. split; [reflexivity|]. by split_and!. Qed.

(** ** More on error handling *)

Lemma ok_http_error r : ok r = true ↔ http_error_of r = None.
Proof. unfold ok. by destruct (http_error_of r). Qed.

Lemma http_error_class r e : http_error_of r = Some e →
  cls e = HTTPError ∧ response e = Some r.
Proof.
  unfold http_error_of.
  destruct (_ && _); [by intros [= <-]|].
  destruct (_ && _); [by intros [= <-]|done].
Qed.

(** X19: [make_request_with_error_handling] sends one GET with a timeout
    of 5 seconds and prints nothing.  It never lets an exception of the
    [requests] family or a JSON decoding error out; and a result with
    'success' True always comes from a response whose status is outside
    400 to 599, and reports that status. *)
Theorem request_with_error_handling_outcomes (net : network) (url : string) :
  (make_request_with_error_handling net url).2 = [EvRequest "GET" url (Some 5)]
  ∧ (∀ e, (make_request_with_error_handling net url).1 = Propagates e →
       is_RequestException (cls e) = false ∧ is_JSONDecodeError (cls e) = false)
  ∧ (∀ v, (make_request_with_error_handling net url).1 = Returns v →
       ∃ d b, v = JObj d ∧ d !! "success" = Some (JBool b)
         ∧ (b = true →
            ∃ r, net "GET" url = Answers r ∧ ok r = true
              ∧ d !! "status_code" = Some (JInt (status_code r)))).
Proof.
  split; [done|]. unfold make_request_with_error_handling. simpl.
  destruct (try_request net url) as [result|e] eqn:Htry.
  - split; [done|]. intros v [= <-]. unfold try_request in Htry.
    destruct (net "GET" url) as [r|]; [|done].
    destruct (http_error_of r) eqn:Hok; [done|].
    destruct (if String.prefix _ _ then _ else _) as [data|]; [|done].
    injection Htry as <-. eexists _, true. split_and!; [done..|].
    intros _. exists r. split_and!; [done | by apply ok_http_error | done].
  - split.
    + intros e'. unfold handle_error.
      destruct (cls e) eqn:Hcls; simpl; intros He'; try discriminate He';
        injection He' as <-; by rewrite Hcls.
    + intros v Hv.
      destruct (is_RequestException (cls e) || is_JSONDecodeError (cls e)) eqn:Hc.
      * destruct (handle_error_returns e Hc) as (d & Hd & Hs & _).
        rewrite Hd in Hv. injection Hv as <-. by exists d, false.
      * apply orb_false_elim in Hc as [Hr Hj]. unfold handle_error in Hv.
        destruct (cls e); simpl in Hv, Hr, Hj; discriminate.
Qed.

(** X20: for a response with a status from 400 to 599 the error value has
    the type 'HTTP Error' and the library's message, and its 'status_code'
    is [None]: the handler reads the code only from a response that is
    true, and a response with such a status is false. *)
Theorem http_error_has_no_status_code (net : network) (url : string)
    (r : Response) :
  net "GET" url = Answers r → ok r = false →
  ∃ e, http_error_of r = Some e
    ∧ (make_request_with_error_handling net url).1
      = Returns (error_dict "HTTP Error" [("status_code", JNull)] (str e)).
Proof.
  intros Hnet Hok. unfold ok in Hok.
  destruct (http_error_of r) as [e|] eqn:He; [|done].
  exists e. split; [done|].
  unfold make_request_with_error_handling, try_request. rewrite Hnet, He. simpl.
  destruct (http_error_class _ _ He) as [Hcls Hresp].
  unfold handle_error. rewrite Hcls, Hresp. simpl.
  unfold ok. by rewrite He.
Qed.

Lemma http_error_has_no_status_code_witness :
  let r := {| status_code := 404; reason := "Not Found"; url := "u";
              headers := []; text := ""; json_ := Decoded JNull |} in
  (make_request_with_error_handling (λ _ _, Answers r) "u").1
  = Returns (error_dict "HTTP Error" [("status_code", JNull)]
               "404 Client Error: Not Found for url: u").
Proof.
  intros r.
  destruct (http_error_has_no_status_code (λ _ _, Answers r) "u" r eq_refl eq_refl)
    as (e & He & Hrun).
  injection He as <-. exact Hrun.
Defined.

(** X21: the [except] clauses are tried in order, so an earlier clause
    takes what a later one names too: a result has the type 'Timeout Error'
    only for [Timeout] and [ReadTimeout] (a [ConnectTimeout] is a
    'Connection Error'), the type 'JSON Decode Error' only for the decoder's
    own [JSONDecodeError] (the library's subclass is a 'Request Error'), and
    only an exception outside both families leaves the function. *)
Theorem except_clauses_in_order (e : raised) :
  (error_type_of (handle_error e) = Some "Timeout Error"
     ↔ cls e = Timeout ∨ cls e = ReadTimeout)
  ∧ (error_type_of (handle_error e) = Some "Connection Error"
     ↔ is_ConnectionError (cls e) = true)
  ∧ (error_type_of (handle_error e) = Some "JSON Decode Error"
     ↔ cls e = JSONDecodeError)
  ∧ (handle_error e = Propagates e ↔ cls e = OtherError).
Proof.
  unfold handle_error.
  destruct (cls e) eqn:Hcls; simpl;
    (split_and!; split; try done; try (by intros [|]); try (by left); try (by right)).
Qed.

(** ** More on the API client *)

(** X22: [_make_request] sends one request, to the joined URL with the
    client's timeout.  It prints exactly when it raises an exception of the
    [requests] family again; what it returns comes from a response with a
    status outside 400 to 599: the decoded body, or the text when the body
    does not decode. *)
Theorem api_client_outcomes (net : network) (self : APIClient)
    (method endpoint : string) :
  let out := _make_request net self method endpoint in
  let sent := EvRequest method (request_url self endpoint) (Some (timeout self)) in
  (out.2 = [sent] ∨ ∃ line, out.2 = [sent; EvPrint line])
  ∧ (printed out.2
     ↔ ∃ e, out.1 = Propagates e ∧ is_RequestException (cls e) = true)
  ∧ (∀ v, out.1 = Returns v →
       ∃ r, net method (request_url self endpoint) = Answers r ∧ ok r = true
         ∧ ((∃ j, json_ r = Decoded j ∧ v = Parsed j)
            ∨ (∃ c msg, json_ r = Undecodable c msg
                 ∧ is_JSONDecodeError c = true ∧ v = Raw (text r)))).
Proof.
  simpl. unfold _make_request.
  destruct (send net method (request_url self endpoint)) as [v|e] eqn:Hsend.
  - split_and!; [by left | |].
    + split.
      * intros (line & Hline). simpl in Hline.
        apply list_elem_of_singleton in Hline. discriminate Hline.
      * by intros (e & He & _).
    + intros v' [= <-]. unfold send in Hsend.
      destruct (net method _) as [r|]; [|done]. exists r.
      destruct (http_error_of r) eqn:Hok; [done|].
      split_and!; [done | by apply ok_http_error |].
      destruct (json_ r) as [j|c msg]; [left | right].
      * injection Hsend as <-. by exists j.
      * destruct (is_JSONDecodeError c) eqn:Hc; [|done].
        injection Hsend as <-. by exists c, msg.
  - destruct (is_RequestException (cls e)) eqn:Hcls; simpl.
    + split_and!; [right; by eexists | | done].
      split; [intros _; by exists e|].
      intros _. eexists. apply elem_of_cons. right. by apply elem_of_cons; left.
    + split_and!; [by left | | done].
      split.
      * intros (line & Hline). simpl in Hline.
        apply list_elem_of_singleton in Hline. discriminate Hline.
      * intros (e' & [= <-] & He'). congruence.
Qed.

(** X23: the URL the client joins has exactly the slashes of its two parts
    and one more: the base URL without a run of slashes at its end (and so
    not ending in one), a slash, and the endpoint without a run of slashes
    at its front (and so not starting with one).  Nothing but slashes is
    removed from either part. *)
Theorem url_join_normal_form (base endpoint : string) (api_key : option string)
    (timeout : Z) :
  ∃ (b e : string) (n m : nat),
    request_url (APIClient_init base api_key timeout) endpoint = b +:+ "/" +:+ e
    ∧ base = b +:+ copies n "/"
    ∧ endpoint = copies m "/" +:+ e
    ∧ (∀ t, b ≠ t +:+ "/")
    ∧ (∀ t, e ≠ "/" +:+ t).
Proof.
  destruct (rstrip_spec "/" base) as (n & Hbase & Hend).
  destruct (lstrip_spec "/" endpoint) as (m & Hendpoint & Hfront).
  exists (rstrip "/" base), (lstrip "/" endpoint), n, m.
  split_and!; [done | done | done | done |].
  intros t Ht. by apply (Hfront "/"%char t).
Qed.

(** X24: a client built with a key sends 'Authorization: Bearer' and the
    key; one built without a key, or with an empty one, sends no such
    header.  The three default headers are set in both cases. *)
Theorem api_client_headers (base : string) (api_key : option string)
    (timeout : Z) :
  let hs := session_headers (session (APIClient_init base api_key timeout)) in
  header_lookup "Authorization" hs
    = match api_key with
      | Some key => if String.eqb key "" then None else Some ("Bearer " +:+ key)
      | None => None
      end
  ∧ header_lookup "Content-Type" hs = Some "application/json"
  ∧ header_lookup "Accept" hs = Some "application/json"
  ∧ header_lookup "User-Agent" hs = Some "APIClient/1.0".
Proof.
  destruct api_key as [key|]; simpl; [|done].
  by destruct (String.eqb key "").
Qed.

(** ** Streams *)

Lemma lines_app t1 t2 : lines (t1 ++ t2) = lines t1 ++ lines t2.
Proof. apply omap_app. Qed.

Lemma show_chunks_cons k chunk rest :
  show_chunks k (chunk :: rest)
  = if negb (String.eqb chunk "") then
      ((show_chunks (k + 1) rest).1,
       (if k + 1 <=? 5 then
          [EvPrint ("Chunk " +:+ pretty (k + 1) +:+ ": "
                      +:+ pretty (String.length chunk) +:+ " bytes")]
        else if k + 1 =? 6 then [EvPrint "... (more chunks)"] else [])
       ++ (show_chunks (k + 1) rest).2)
    else show_chunks k rest.
Proof.
  simpl. destruct (negb _); [|done]. by destruct (show_chunks (k + 1) rest).
Qed.

Lemma nonempty_chunks_cons chunk rest :
  nonempty_chunks (chunk :: rest)
  = if negb (String.eqb chunk "") then chunk :: nonempty_chunks rest
    else nonempty_chunks rest.
Proof. reflexivity. Qed.

(** The count after the loop: one more for every non-empty chunk. *)
Lemma show_chunks_count k cs :
  (show_chunks k cs).1 = k + Z.of_nat (length (nonempty_chunks cs)).
Proof.
  revert k. induction cs as [|chunk rest IH]; intros k; [simpl; lia|].
  rewrite show_chunks_cons, nonempty_chunks_cons.
  destruct (negb _); [|apply IH]. simpl. rewrite IH. lia.
Qed.

(** The lines of the loop: one for each count up to six. *)
Lemma show_chunks_lines k cs :
  0 ≤ k →
  length (lines (show_chunks k cs).2)
  = Z.to_nat (Z.min (k + Z.of_nat (length (nonempty_chunks cs))) 6 - Z.min k 6).
Proof.
  revert k. induction cs as [|chunk rest IH]; intros k Hk; [simpl; lia|].
  rewrite show_chunks_cons, nonempty_chunks_cons.
  destruct (negb _); [|by apply IH]. simpl snd. rewrite lines_app, length_app.
  rewrite IH by lia. simpl length.
  destruct (Z.leb_spec (k + 1) 5); [simpl; lia|].
  destruct (Z.eqb_spec (k + 1) 6); simpl; lia.
Qed.

(** The loop only prints. *)
Lemma show_chunks_prints k cs :
  length (lines (show_chunks k cs).2) = length (show_chunks k cs).2.
Proof.
  revert k. induction cs as [|chunk rest IH]; intros k; [done|].
  rewrite show_chunks_cons. destruct (negb _); [|apply IH]. simpl snd.
  rewrite lines_app, !length_app, IH. f_equal.
  destruct (k + 1 <=? 5); [done|]. by destruct (k + 1 =? 6).
Qed.

(** The first five chunks are reported with their number and size. *)
Lemma show_chunks_line k cs (i : nat) chunk :
  0 ≤ k → k + Z.of_nat i < 5 →
  nonempty_chunks cs !! i = Some chunk →
  lines (show_chunks k cs).2 !! i
  = Some ("Chunk " +:+ pretty (k + Z.of_nat i + 1) +:+ ": "
            +:+ pretty (String.length chunk) +:+ " bytes").
Proof.
  revert k i. induction cs as [|c rest IH]; intros k i Hk Hi; [done|].
  rewrite show_chunks_cons, nonempty_chunks_cons.
  destruct (negb _); [|by apply IH]. simpl snd. rewrite lines_app.
  destruct (Z.leb_spec (k + 1) 5); [|lia]. simpl.
  destruct i as [|i]; simpl.
  - intros [= ->]. by replace (k + Z.of_nat 0 + 1) with (k + 1) by lia.
  - intros Hc. rewrite (IH (k + 1) i) by (done || lia).
    by replace (k + 1 + Z.of_nat i + 1) with (k + Z.of_nat (S i) + 1) by lia.
Qed.

(** The sixth chunk is reported by the marker line. *)
Lemma show_chunks_marker k cs :
  0 ≤ k ≤ 5 → 6 ≤ k + Z.of_nat (length (nonempty_chunks cs)) →
  lines (show_chunks k cs).2 !! Z.to_nat (5 - k) = Some "... (more chunks)".
Proof.
  revert k. induction cs as [|c rest IH]; intros k Hk Hn; [simpl in Hn; lia|].
  revert Hn. rewrite show_chunks_cons, nonempty_chunks_cons.
  destruct (negb _); [|by apply IH]. simpl snd. simpl length.
  intros Hn. rewrite lines_app.
  destruct (Z.leb_spec (k + 1) 5).
  - simpl. replace (Z.to_nat (5 - k)) with (S (Z.to_nat (5 - (k + 1)))) by lia.
    simpl. apply IH; lia.
  - destruct (Z.eqb_spec (k + 1) 6); [|lia].
    by replace (Z.to_nat (5 - k)) with 0%nat by lia.
Qed.

(** X27: for a stream that arrives whole, [stream_large_response] counts
    the non-empty chunks only and never prints more than seven lines: a
    line with number and size for each of the first five, the line
    '... (more chunks)' when there is a sixth, and the total at the end. *)
Theorem stream_report (net : string → streaming) (url : string) (s : Stream) :
  net url = Streams s → ok (head s) = true → broken s = None →
  let n := length (nonempty_chunks (chunks s)) in
  let out := stream_large_response net url in
  out.1 = Returns tt
  ∧ length (lines out.2) = S (Nat.min n 6)
  ∧ lines out.2 !! Nat.min n 6
    = Some ("Total chunks processed: " +:+ pretty (Z.of_nat n))
  ∧ (∀ (i : nat) chunk, (i < 5)%nat →
       nonempty_chunks (chunks s) !! i = Some chunk →
       lines out.2 !! i
       = Some ("Chunk " +:+ pretty (Z.of_nat i + 1) +:+ ": "
                 +:+ pretty (String.length chunk) +:+ " bytes"))
  ∧ ((6 ≤ n)%nat → lines out.2 !! 5%nat = Some "... (more chunks)").
Proof.
  intros Hnet Hok Hwhole. apply ok_http_error in Hok. simpl.
  unfold stream_large_response. rewrite Hnet, Hok, Hwhole.
  pose proof (show_chunks_count 0 (chunks s)) as Hcount.
  pose proof (show_chunks_lines 0 (chunks s) ltac:(lia)) as Hlen.
  pose proof (show_chunks_line 0 (chunks s)) as Hline.
  pose proof (show_chunks_marker 0 (chunks s)) as Hmark.
  destruct (show_chunks 0 (chunks s)) as [count out]. simpl in *.
  subst count.
  assert (length (lines out) = Nat.min (length (nonempty_chunks (chunks s))) 6)
    as Hlen' by lia.
  change (lines (EvRequest "GET" url None :: out ++ ?t)) with (lines (out ++ t)).
  rewrite lines_app. simpl lines. split_and!.
  - done.
  - rewrite length_app. simpl. lia.
  - rewrite lookup_app_r by lia. by rewrite Hlen', Nat.sub_diag.
  - intros i chunk Hi Hc. rewrite lookup_app_l.
    + by apply Hline; [lia | lia |].
    + apply lookup_lt_Some in Hc. lia.
  - intros Hn. rewrite lookup_app_l by lia. apply (Hmark ltac:(lia)). lia.
Qed.

Lemma stream_report_witness :
  (stream_large_response (λ _, whole ["ab"; ""; "cde"]) "u").2
  = [EvRequest "GET" "u" None; EvPrint "Chunk 1: 2 bytes";
     EvPrint "Chunk 2: 3 bytes"; EvPrint "Total chunks processed: 2"]
  ∧ length (lines (stream_large_response (λ _, whole ["ab"; ""; "cde"]) "u").2)
    = 3%nat.
Proof.
  split; [reflexivity|].
  destruct (stream_report (λ _, whole ["ab"; ""; "cde"]) "u" _
              eq_refl eq_refl eq_refl) as (_ & Hlen & _).
  exact Hlen.
Defined.

(** X28: [stream_large_response] never lets an exception of the
    [requests] family out: when the request is refused, the status is an
    error or the stream breaks, it prints 'Streaming Error' with the
    message as its last line, prints no total, and returns. *)
Theorem stream_failure_is_printed (net : string → streaming) (url : string) :
  let out := stream_large_response net url in
  (∀ e, out.1 = Propagates e → is_RequestException (cls e) = false)
  ∧ (∀ e, is_RequestException (cls e) = true →
       (net url = Refuses e
        ∨ (∃ s, net url = Streams s
             ∧ (http_error_of (head s) = Some e
                ∨ (http_error_of (head s) = None ∧ broken s = Some e)))) →
       out.1 = Returns tt
       ∧ ∃ shown, lines out.2 = shown ++ ["Streaming Error: " +:+ str e]
           ∧ (length shown ≤ 6)%nat).
Proof.
  simpl. unfold stream_large_response. split.
  - intros e.
    destruct (net url) as [s|e0].
    + destruct (http_error_of (head s)) as [e1|].
      * destruct (is_RequestException (cls e1)) eqn:H1; [done|].
        by intros [= <-].
      * destruct (show_chunks 0 (chunks s)) as [count out].
        destruct (broken s) as [e2|]; [|done].
        destruct (is_RequestException (cls e2)) eqn:H2; [done|].
        by intros [= <-].
    + destruct (is_RequestException (cls e0)) eqn:H0; [done|].
      by intros [= <-].
  - intros e He [-> | (s & -> & [-> | [-> Hb]])].
    + rewrite He. split; [done|]. exists []. split; [done | simpl; lia].
    + rewrite He. split; [done|]. exists []. split; [done | simpl; lia].
    + pose proof (show_chunks_lines 0 (chunks s) ltac:(lia)) as Hlen.
      destruct (show_chunks 0 (chunks s)) as [count out]. rewrite Hb, He.
      split; [done|]. exists (lines out). simpl in *.
      change (lines (EvRequest "GET" url None :: out ++ ?t)) with (lines (out ++ t)).
      rewrite lines_app. split; [done|]. lia.
Qed.

Lemma stream_failure_is_printed_witness :
  (stream_large_response (λ _, cut ["ab"]) "u").2
  = [EvRequest "GET" "u" None; EvPrint "Chunk 1: 2 bytes";
     EvPrint "Streaming Error: Connection broken"]
  ∧ (stream_large_response (λ _, cut ["ab"]) "u").1 = Returns tt.
Proof.
  split; [reflexivity|].
  destruct (stream_failure_is_printed (λ _, cut ["ab"]) "u") as [_ H].
  refine (proj1 (H {| cls := ConnectionError; str := "Connection broken";
                      response := None |} eq_refl _)).
  right. eexists. split; [reflexivity|]. right. by split.
Defined.

(** ** Downloads *)

Lemma write_chunks_cons show total_size d chunk rest :
  write_chunks show total_size d (chunk :: rest)
  = if negb (String.eqb chunk "") then
      let d' := d + Z.of_nat (String.length chunk) in
      (chunk +:+ (write_chunks show total_size d' rest).1.1,
       (write_chunks show total_size d' rest).1.2,
       (if 0 <? total_size then [EvPrint (show d' total_size)] else [])
       ++ (write_chunks show total_size d' rest).2)
    else write_chunks show total_size d rest.
Proof.
  simpl. destruct (negb _); [|done].
  by destruct (write_chunks show total_size _ rest) as [[] ?].
Qed.

(** The loop writes the chunks in order. *)
Lemma write_chunks_written show total_size d cs :
  (write_chunks show total_size d cs).1.1 = joined cs.
Proof.
  revert d. induction cs as [|chunk rest IH]; intros d; [done|].
  rewrite write_chunks_cons. unfold joined. simpl foldr.
  destruct (String.eqb_spec chunk "") as [->|Hne]; simpl.
  - rewrite IH. reflexivity.
  - by rewrite IH.
Qed.

(** It prints one progress line for each non-empty chunk when the size is
    known, and none otherwise. *)
Lemma write_chunks_lines show total_size d cs :
  length (lines (write_chunks show total_size d cs).2)
  = if 0 <? total_size then length (nonempty_chunks cs) else 0%nat.
Proof.
  revert d. induction cs as [|chunk rest IH]; intros d;
    [by destruct (0 <? total_size)|].
  rewrite write_chunks_cons, nonempty_chunks_cons.
  destruct (negb _); [|apply IH]. simpl snd.
  rewrite lines_app, length_app, IH. by destruct (0 <? total_size).
Qed.

(** X29: when the whole stream arrives, [download_file] returns [True],
    the file holds the chunks in the order they came, every other file is
    as before, and the last line printed reports the completion.  One
    progress line is printed for each non-empty chunk when the response
    announced a positive length, and none otherwise. *)
Theorem download_file_complete (to_int : string → Z + raised)
    (show : Z → Z → string) (net : string → streaming) (url filename : string)
    (disk : gmap string string) (s : Stream) (total_size : Z) :
  net url = Streams s → ok (head s) = true → broken s = None →
  match header_lookup "content-length" (headers (head s)) with
  | Some v => to_int v
  | None => inl 0
  end = inl total_size →
  let out := download_file to_int show net url filename disk in
  out.1.1 = Returns true
  ∧ out.2 = <[filename := joined (chunks s)]> disk
  ∧ (∃ progress,
       lines out.1.2
       = progress ++ [String "010" ("Download completed: " +:+ filename)]
       ∧ length progress
         = if 0 <? total_size then length (nonempty_chunks (chunks s))
           else 0%nat).
Proof.
  intros Hnet Hok Hwhole Hsize. apply ok_http_error in Hok. simpl.
  unfold download_file. rewrite Hnet, Hok, Hsize, Hwhole.
  pose proof (write_chunks_written show total_size 0 (chunks s)) as Hwritten.
  pose proof (write_chunks_lines show total_size 0 (chunks s)) as Hlines.
  destruct (write_chunks show total_size 0 (chunks s)) as [[written n] out].
  simpl in *. subst written. split_and!; [done..|].
  exists (lines out). split; [|done].
  change (lines (EvRequest "GET" url None :: out ++ ?t)) with (lines (out ++ t)).
  by rewrite lines_app.
Qed.

Lemma download_file_complete_witness :
  (download_file (λ _, inl 5) (λ _ _, "progress") (λ _, whole ["ab"; ""; "cde"])
     "u" "f.json" ∅).2
  = <["f.json" := "abcde"]> ∅.
Proof.
  destruct (download_file_complete (λ _, inl 5) (λ _ _, "progress")
              (λ _, whole ["ab"; ""; "cde"]) "u" "f.json" ∅ _ 0
              eq_refl eq_refl eq_refl eq_refl) as (_ & Hdisk & _).
  exact Hdisk.
Defined.

(** X30: [download_file] returns [True] only for a stream that arrived
    whole.  On an exception of the [requests] family it prints
    'Download Error' with the message and returns [False]: the disk is
    untouched when the request is refused or the status is an error, but
    when the stream breaks the file stays behind with the chunks that had
    arrived. *)
Theorem download_file_failure (to_int : string → Z + raised)
    (show : Z → Z → string) (net : string → streaming) (url filename : string)
    (disk : gmap string string) :
  let out := download_file to_int show net url filename disk in
  (out.1.1 = Returns true →
     ∃ s, net url = Streams s ∧ ok (head s) = true ∧ broken s = None)
  ∧ (∀ e, is_RequestException (cls e) = true →
       (net url = Refuses e
        ∨ ∃ s, net url = Streams s ∧ http_error_of (head s) = Some e) →
       out = (Returns false,
              [EvRequest "GET" url None; EvPrint ("Download Error: " +:+ str e)],
              disk))
  ∧ (∀ e s total_size, is_RequestException (cls e) = true →
       net url = Streams s → ok (head s) = true →
       match header_lookup "content-length" (headers (head s)) with
       | Some v => to_int v
       | None => inl 0
       end = inl total_size →
       broken s = Some e →
       out.1.1 = Returns false
       ∧ out.2 = <[filename := joined (chunks s)]> disk
       ∧ ∃ progress,
           lines out.1.2 = progress ++ ["Download Error: " +:+ str e]).
Proof.
  simpl. unfold download_file. split_and!.
  - destruct (net url) as [s|e0].
    + destruct (http_error_of (head s)) as [e1|] eqn:Hok.
      * by destruct (is_RequestException (cls e1)).
      * destruct (match header_lookup _ _ with Some v => to_int v | None => inl 0 end)
          as [total_size|e2].
        -- destruct (write_chunks show total_size 0 (chunks s)) as [[written n] out].
           destruct (broken s) as [e3|] eqn:Hb.
           ++ by destruct (is_RequestException (cls e3)).
           ++ intros _. exists s. split_and!; [done | by apply ok_http_error | done].
        -- by destruct (is_RequestException (cls e2)).
    + by destruct (is_RequestException (cls e0)).
  - intros e He [-> | (s & -> & ->)]; by rewrite He.
  - intros e s total_size He -> Hok Hsize Hb. apply ok_http_error in Hok.
    rewrite Hok, Hsize.
    pose proof (write_chunks_written show total_size 0 (chunks s)) as Hwritten.
    destruct (write_chunks show total_size 0 (chunks s)) as [[written n] out].
    rewrite Hb, He. simpl in *. subst written. split_and!; [done..|].
    exists (lines out).
    change (lines (EvRequest "GET" url None :: out ++ ?t)) with (lines (out ++ t)).
    by rewrite lines_app.
Qed.

Lemma download_file_failure_witness :
  let out := download_file (λ _, inl 5) (λ _ _, "progress") (λ _, cut ["ab"; "c"])
               "u" "f.json" ∅ in
  out.1.1 = Returns false ∧ out.2 = <["f.json" := "abc"]> ∅.
Proof.
  intros out.
  destruct (download_file_failure (λ _, inl 5) (λ _ _, "progress")
              (λ _, cut ["ab"; "c"]) "u" "f.json" ∅) as (_ & _ & H).
  destruct (H {| cls := ConnectionError; str := "Connection broken";
                 response := None |} _ 0 eq_refl eq_refl eq_refl eq_refl eq_refl)
    as (Hret & Hdisk & _).
  split; [exact Hret | exact Hdisk].
Defined.
End RequestsProps.
